(** * employee_timelog_list: the bulk timesheet lookup handler

    A shallow embedding of [src/main.py].  The handler decodes a Pub/Sub
    message, fetches every [TimeLog], serializes the list, groups the
    serialized records by employee identifier and forwards the grouped
    result with [send_dashboard_update].

    Layout of the development:
    - [Py]       the Python values and dictionaries the handler touches;
    - [Grouping] the loop of lines 61-68;
    - [Handler]  the whole function, over an explicit record of the
                 collaborators it calls, in a call-trace/exception monad;
    - the properties of the grouping loop and of the handler. *)

From Stdlib Require Import ZArith Ascii String List.
From stdpp Require Import base option list strings pretty gmap.

Local Open Scope string_scope.
Local Open Scope Z_scope.
Local Open Scope list_scope.

(* ===================================================================== *)
(** ** Python values                                                      *)
(* ===================================================================== *)

Module Py.

(** A value found in a serialized record.  The grouping loop observes a
    value in three ways only: [is not None], its truth value (through
    [or]) and [str()].  [VObj] stands for every other Python object (a
    float, a [Decimal], a [UUID], a nested mapping, ...) and carries
    exactly these two observations. *)
Inductive value : Type :=
  | VNone
  | VBool (b : bool)
  | VInt (n : Z)
  | VStr (s : string)
  | VObj (truth : bool) (text : string).

#[global] Instance value_eq_dec : EqDecision value.
Proof. solve_decision. Defined.

(** [bool(v)]: [None], [False], [0] and [''] are falsy. *)
Definition truthy (v : value) : bool :=
  match v with
  | VNone => false
  | VBool b => b
  | VInt n => negb (n =? 0)
  | VStr s => negb (String.eqb s "")
  | VObj t _ => t
  end.

(** [a or b]: [a] when [a] is truthy, otherwise [b]. *)
Definition or_ (a b : value) : value := if truthy a then a else b.

(** [v is not None] *)
Definition is_not_None (v : value) : bool :=
  match v with VNone => false | _ => true end.

(** [str(v)] *)
Definition str (v : value) : string :=
  match v with
  | VNone => "None"
  | VBool true => "True"
  | VBool false => "False"
  | VInt n => pretty n
  | VStr s => s
  | VObj _ t => t
  end.

(** A serialized record: a [dict] with string keys. *)
Abbreviation dict := (gmap string value).

(** [d.get(k)]: the value under [k], [None] when the key is missing. *)
Definition get (d : dict) (k : string) : value := default VNone (d !! k).

(** An insertion-ordered [dict] whose values are lists that are appended
    to in place: the association list of its items, in insertion order. *)
Definition odict (V : Type) : Type := list (string * list V).

Section OrderedDict.
Context {V : Type}.

(** [list(d.keys())] *)
Definition keys (d : odict V) : list string := d.*1.

(** [k in d] *)
Definition contains (d : odict V) (k : string) : bool :=
  bool_decide (k ∈ keys d).

(** [d[k]], [None] standing for [KeyError]. *)
Fixpoint getitem (d : odict V) (k : string) : option (list V) :=
  match d with
  | [] => None
  | (k', l) :: d' => if decide (k' = k) then Some l else getitem d' k
  end.

(** [d[k] = l]: overwrite in place, or insert at the end. *)
Fixpoint setitem (d : odict V) (k : string) (l : list V) : odict V :=
  match d with
  | [] => [(k, l)]
  | (k', l') :: d' =>
      if decide (k' = k) then (k, l) :: d' else (k', l') :: setitem d' k l
  end.

(** [d[k].append(x)] for a key that is present (the list stored under
    [k] is mutated, the dictionary's key order is untouched). *)
Fixpoint append_at (d : odict V) (k : string) (x : V) : odict V :=
  match d with
  | [] => []
  | (k', l) :: d' =>
      if decide (k' = k) then (k', l ++ [x]) :: d'
      else (k', l) :: append_at d' k x
  end.
End OrderedDict.

End Py.

(* ===================================================================== *)
(** ** The grouping loop (lines 61-68)                                    *)
(* ===================================================================== *)

Module Grouping.
Import Py.

Abbreviation record := (gmap string value).
Abbreviation grouped := (odict record).

(** Line 63: [timesheet.get("employee_id") or timesheet.get("employee")] *)
Definition emp_id (timesheet : record) : value :=
  or_ (get timesheet "employee_id") (get timesheet "employee").

(** Lines 63-68, one iteration of the loop body. *)
Definition group_step (grouped_logs : grouped) (timesheet : record) : grouped :=
  let emp_id := emp_id timesheet in
  if is_not_None emp_id then
    let emp_id := str emp_id in
    let grouped_logs :=
      if negb (contains grouped_logs emp_id)
      then setitem grouped_logs emp_id []
      else grouped_logs in
    append_at grouped_logs emp_id timesheet
  else grouped_logs.

(** Lines 61-68: [grouped_logs = {}] and the [for] loop over
    [serializer.data]. *)
Definition group_logs (data : list record) : grouped :=
  fold_left group_step data [].

(** The key a record is filed under, [None] when the loop skips it. *)
Definition key_of (timesheet : record) : option string :=
  let v := emp_id timesheet in
  if is_not_None v then Some (str v) else None.

(** The distinct elements of [ks], each at the place of its first
    occurrence. *)
Fixpoint first_seen (ks : list string) : list string :=
  match ks with
  | [] => []
  | k :: ks' => k :: filter (fun k' => k' <> k) (first_seen ks')
  end.

(** All the records held by a grouped result, group after group. *)
Definition grouped_records (g : grouped) : list record := concat g.*2.

(** The records of [data] filed under [k], in the order of [data]. *)
Definition records_of (k : string) (data : list record) : list record :=
  filter (fun r => key_of r = Some k) data.

End Grouping.

(* ===================================================================== *)
(** ** The handler (lines 26-78)                                          *)
(* ===================================================================== *)

Module Handler.
Import Py Grouping.

(** An instance of Python's [Exception]: its class name and [str(e)]. *)
Record Exception : Type := { exc_class : string; exc_text : string }.

#[global] Instance Exception_eq_dec : EqDecision Exception.
Proof. solve_decision. Defined.

(** The outcome of a call that may raise. *)
Inductive result (A : Type) : Type :=
  | Ok (a : A)
  | Raise (e : Exception).
Arguments Ok {A} a.
Arguments Raise {A} e.

(** What [json.loads] builds. *)
#[warnings="-register-all"]
Inductive json : Type :=
  | JNull
  | JBool (b : bool)
  | JInt (n : Z)
  | JFloat (repr : string)
  | JStr (s : string)
  | JList (items : list json)
  | JDict (items : list (string * json)).

(** [isinstance(j, str)]; the handler's test on line 51 is the [match]
    on [JStr] in [decode_message] and [body]. *)
Definition isinstance_str (j : json) : bool :=
  match j with JStr _ => true | _ => false end.

(** The third argument of [send_dashboard_update] on line 72:
    [{"timelogs": grouped_logs, "message": msg_str}]. *)
Record payload : Type := { timelogs : grouped; message : string }.

(** The delivery context; the handler never reads it. *)
Record Context : Type := { event_id : string; timestamp : string }.

(** The collaborators the handler calls.  None of them lives in this
    repository: [base64], [bytes.decode] and [json] are Python's, the
    [TimeLog] manager, its serializer and [send_dashboard_update] come
    from the shared timesheet package. *)
Record Runtime : Type := {
  TimeLog : Type;
  (** [base64.b64decode(s)] *)
  b64decode : string -> result (list Byte.byte);
  (** [b.decode("utf-8")] *)
  utf8_decode : list Byte.byte -> result string;
  (** [json.loads(s)] *)
  json_loads : string -> result json;
  (** [TimeLog.objects.all()] *)
  objects_all : result (list TimeLog);
  (** the serializer's representation of one [TimeLog] *)
  to_representation : TimeLog -> result record;
  (** [send_dashboard_update(target, event_type, payload)] *)
  send_dashboard_update : string -> string -> payload -> result unit
}.

(** The calls the handler makes, in the order it makes them. *)
Inductive call : Type :=
  | CB64decode (s : string)
  | CUtf8decode (b : list Byte.byte)
  | CLoads (s : string)
  | CInfo (msg : string)
  | CException (msg : string) (e : Exception)
  | CObjectsAll
  | CSerializerData
  | CSend (target event_type : string) (p : payload).

(** Computations: the calls made so far, and a value or the exception
    that stopped the computation. *)
Definition M (A : Type) : Type := list call * result A.

#[global] Instance M_ret : MRet M := fun A a => ([], Ok a).
#[global] Instance M_bind : MBind M := fun A B k m =>
  match m with
  | (t, Ok a) => let '(t', r) := k a in (t ++ t', r)
  | (t, Raise e) => (t, Raise e)
  end.

(** [raise e] *)
Definition raise {A : Type} (e : Exception) : M A := ([], Raise e).

(** One call to a collaborator and its outcome. *)
Definition perform {A : Type} (c : call) (r : result A) : M A := ([c], r).

(** [try: body except Exception as e: handler(e)] *)
Definition try_except {A : Type} (body : M A) (handler : Exception -> M A) : M A :=
  match body with
  | (t, Ok a) => (t, Ok a)
  | (t, Raise e) => let '(t', r) := handler e in (t ++ t', r)
  end.

Definition trace {A : Type} (m : M A) : list call := m.1.
Definition outcome {A : Type} (m : M A) : result A := m.2.

(** [[f(x) for x in xs]], stopping at the first [x] on which [f] raises. *)
Fixpoint map_result {A B : Type} (f : A -> result B) (xs : list A) : result (list B) :=
  match xs with
  | [] => Ok []
  | x :: xs' =>
      match f x with
      | Raise e => Raise e
      | Ok y =>
          match map_result f xs' with
          | Raise e => Raise e
          | Ok ys => Ok (y :: ys)
          end
      end
  end.

(** Line 57: the summary string. *)
Definition msg_str (data : list record) : string :=
  "Bulk Timesheet Lookup: found " +:+ pretty (length data) +:+ " timelog records.".

Section WithRuntime.
Variable rt : Runtime.

(** [event["data"]]: [KeyError('data')] when the key is missing. *)
Definition event_getitem (event : gmap string string) (k : string) : M string :=
  match event !! k with
  | Some v => mret v
  | None => raise {| exc_class := "KeyError"; exc_text := "'" +:+ k +:+ "'" |}
  end.

Definition logger_info (msg : string) : M unit := perform (CInfo msg) (Ok tt).
Definition logger_exception (msg : string) (e : Exception) : M unit :=
  perform (CException msg e) (Ok tt).
Definition loads (s : string) : M json := perform (CLoads s) (json_loads rt s).

(** Modelled from the spec: [TimeLogSerializer(logs, many=True).data]
    is not in this repository; the serializer "transform[s] every
    retrieved record into its flat mapping form ..., producing an
    ordered sequence preserving retrieval order".  The property is
    evaluated once, on line 57, and line 62 reads the cached list. *)
Definition serializer_data (logs : list (TimeLog rt)) : M (list record) :=
  perform CSerializerData (map_result (to_representation rt) logs).

(** Lines 45-51: from the event to [data]. *)
Definition decode_message (event : gmap string string) : M json :=
  d ← event_getitem event "data";
  b ← perform (CB64decode d) (b64decode rt d);
  raw_data ← perform (CUtf8decode b) (utf8_decode rt b);
  logger_info ("Raw message received: " +:+ raw_data);;
  first_pass ← loads raw_data;
  match first_pass with
  | JStr s => loads s
  | _ => mret first_pass
  end.

(** Lines 53-73: everything after [data] is bound. *)
Definition fetch_group_forward : M unit :=
  logger_info "Fetching all employee timesheet objects...";;
  logs ← perform CObjectsAll (objects_all rt);
  data ← serializer_data logs;
  let msg_str := msg_str data in
  logger_info msg_str;;
  let grouped_logs := group_logs data in
  perform (CSend "all" "bulk_timelog_lookup"
                 {| timelogs := grouped_logs; message := msg_str |})
          (send_dashboard_update rt "all" "bulk_timelog_lookup"
                 {| timelogs := grouped_logs; message := msg_str |});;
  logger_info "Sent dashboard update with grouped employee timelogs.".

(** Lines 75-78: the [except Exception as e] clause. *)
Definition on_exception (e : Exception) : M unit :=
  logger_exception
    ("Error processing employee_timelog_list message: " +:+ exc_text e) e;;
  raise e.

(** Lines 43-73 without the [try]: the statements of the body, in
    order.  [data] is bound on line 51 and never read again. *)
Definition body (event : gmap string string) : M unit :=
  d ← event_getitem event "data";
  b ← perform (CB64decode d) (b64decode rt d);
  raw_data ← perform (CUtf8decode b) (utf8_decode rt b);
  logger_info ("Raw message received: " +:+ raw_data);;
  first_pass ← loads raw_data;
  data ← match first_pass with
         | JStr s => loads s
         | _ => mret first_pass
         end;
  logger_info "Fetching all employee timesheet objects...";;
  logs ← perform CObjectsAll (objects_all rt);
  serializer ← serializer_data logs;
  let msg_str := msg_str serializer in
  logger_info msg_str;;
  let grouped_logs := group_logs serializer in
  perform (CSend "all" "bulk_timelog_lookup"
                 {| timelogs := grouped_logs; message := msg_str |})
          (send_dashboard_update rt "all" "bulk_timelog_lookup"
                 {| timelogs := grouped_logs; message := msg_str |});;
  logger_info "Sent dashboard update with grouped employee timelogs.".

(** [employee_timelog_list(event, context)] *)
Definition employee_timelog_list (event : gmap string string) (context : Context) : M unit :=
  try_except (body event) on_exception.

(** [event] carries the text [raw]: its [data] field is there and
    decodes, first from base64 and then from UTF-8, to [raw]. *)
Definition decoded (event : gmap string string) (raw : string) : Prop :=
  exists d b, event !! "data" = Some d /\
              b64decode rt d = Ok b /\ utf8_decode rt b = Ok raw.

(** Lines 53-73 under the [except] clause of lines 75-78. *)
Definition guarded_pipeline : M unit :=
  try_except fetch_group_forward on_exception.

(** The invocation fails with [e]: [e] is what the handler raises,
    after one error-level log entry that carries [str(e)] and [e]. *)
Definition fails_with (event : gmap string string) (context : Context)
    (e : Exception) : Prop :=
  employee_timelog_list event context =
    (trace (body event)
       ++ [CException ("Error processing employee_timelog_list message: "
                         +:+ exc_text e) e],
     Raise e)
  /\ outcome (body event) = Raise e.

End WithRuntime.

(** The texts handed to [json.loads], one per parse pass. *)
Definition loads_of (t : list call) : list string :=
  omap (fun c => match c with CLoads s => Some s | _ => None end) t.

(** The calls to [send_dashboard_update]: target, event type, payload. *)
Definition forwarded (t : list call) : list (string * string * payload) :=
  omap (fun c => match c with
                 | CSend target ty p => Some (target, ty, p)
                 | _ => None
                 end) t.

(** The calls to the store ([TimeLog.objects.all()]), one [()] each. *)
Definition fetches (t : list call) : list unit :=
  omap (fun c => match c with CObjectsAll => Some tt | _ => None end) t.

(** The info-level log entries. *)
Definition infos (t : list call) : list string :=
  omap (fun c => match c with CInfo m => Some m | _ => None end) t.

(** Line 73: the entry written after [send_dashboard_update] returned. *)
Definition sent_entry : string :=
  "Sent dashboard update with grouped employee timelogs.".

(** The error-level log entries. *)
Definition logged_exceptions (t : list call) : list (string * Exception) :=
  omap (fun c => match c with CException m e => Some (m, e) | _ => None end) t.

End Handler.

Import Py Grouping Handler.

(* ===================================================================== *)
(** ** Module-level configuration (lines 19-20)                           *)
(* ===================================================================== *)

Module Config.

(** Line 19: [os.environ.get("PROJECT_ID", "hopkinstimesheetproj")]. *)
Definition PROJECT_ID (environ : gmap string string) : string :=
  default "hopkinstimesheetproj" (environ !! "PROJECT_ID").

(** Line 20: [f"projects/{PROJECT_ID}/topics/dashboard-queue"]. *)
Definition DASHBOARD_TOPIC (environ : gmap string string) : string :=
  "projects/" +:+ PROJECT_ID environ +:+ "/topics/dashboard-queue".

End Config.

(* ===================================================================== *)
(** ** A small runtime to run the handler on                              *)
(* ===================================================================== *)

(** Stand-ins for the collaborators, as a unit test would provide them:
    a strict base64 decoder, an ASCII-only UTF-8 decoder, a JSON reader
    for the literals [{}], [[]], [null] and for string literals, a store
    that holds a fixed list of rows and a notifier that succeeds or
    fails on request. *)
Module Sample.

Definition quote : ascii := "034"%char.
Definition backslash : ascii := "092"%char.

Definition b64_index (c : ascii) : option N :=
  let n := N_of_ascii c in
  if ((65 <=? n) && (n <=? 90))%N then Some (n - 65)%N
  else if ((97 <=? n) && (n <=? 122))%N then Some (n - 71)%N
  else if ((48 <=? n) && (n <=? 57))%N then Some (n + 4)%N
  else if (n =? 43)%N then Some 62%N
  else if (n =? 47)%N then Some 63%N
  else None.

Definition byte_of_N (n : N) : Byte.byte :=
  default Byte.x00 (Byte.of_N (n mod 256)).

Definition is_pad (c : ascii) : bool := Ascii.eqb c "="%char.

Fixpoint b64_groups (cs : list ascii) : option (list Byte.byte) :=
  match cs with
  | [] => Some []
  | a :: b :: c :: d :: rest =>
      match b64_index a, b64_index b with
      | Some x, Some y =>
          let b1 := byte_of_N (x * 4 + y / 16) in
          if is_pad c then
            match rest with
            | [] => if is_pad d then Some [b1] else None
            | _ => None
            end
          else
            match b64_index c with
            | Some z =>
                let b2 := byte_of_N ((y mod 16) * 16 + z / 4) in
                if is_pad d then
                  match rest with
                  | [] => Some [b1; b2]
                  | _ => None
                  end
                else
                  match b64_index d with
                  | Some w =>
                      let b3 := byte_of_N ((z mod 4) * 64 + w) in
                      match b64_groups rest with
                      | Some bs => Some (b1 :: b2 :: b3 :: bs)
                      | None => None
                      end
                  | None => None
                  end
            | None => None
            end
      | _, _ => None
      end
  | _ => None
  end.

Definition b64decode (s : string) : result (list Byte.byte) :=
  match b64_groups (list_ascii_of_string s) with
  | Some bs => Ok bs
  | None => Raise {| exc_class := "binascii.Error"; exc_text := "Incorrect padding" |}
  end.

Definition utf8_decode (bs : list Byte.byte) : result string :=
  if forallb (fun b => (Byte.to_N b <? 128)%N) bs
  then Ok (string_of_list_ascii (map ascii_of_byte bs))
  else Raise {| exc_class := "UnicodeDecodeError";
                exc_text := "'utf-8' codec can't decode byte" |}.

(** The characters of a string literal after its opening quote: up to
    the closing quote, which must end the text; [\] escapes a quote or
    a backslash. *)
Fixpoint string_body (cs : list ascii) : option (list ascii) :=
  match cs with
  | [] => None
  | c :: rest =>
      if Ascii.eqb c quote then
        match rest with [] => Some [] | _ => None end
      else if Ascii.eqb c backslash then
        match rest with
        | e :: rest' =>
            if Ascii.eqb e quote || Ascii.eqb e backslash
            then option_map (cons e) (string_body rest')
            else None
        | [] => None
        end
      else option_map (cons c) (string_body rest)
  end.

Definition json_error : Exception :=
  {| exc_class := "json.decoder.JSONDecodeError";
     exc_text := "Expecting value: line 1 column 1 (char 0)" |}.

Definition json_loads (s : string) : result json :=
  if String.eqb s "{}" then Ok (JDict [])
  else if String.eqb s "[]" then Ok (JList [])
  else if String.eqb s "null" then Ok JNull
  else
    match list_ascii_of_string s with
    | c :: rest =>
        if Ascii.eqb c quote then
          match string_body rest with
          | Some cs => Ok (JStr (string_of_list_ascii cs))
          | None => Raise json_error
          end
        else Raise json_error
    | [] => Raise json_error
    end.

Definition store_error : Exception :=
  {| exc_class := "OperationalError"; exc_text := "connection refused" |}.
Definition notification_error : Exception :=
  {| exc_class := "GoogleAPICallError"; exc_text := "publish failed" |}.

(** A runtime whose store holds [rows] (already in serialized form, so
    that the serializer is the identity) and whose notifier answers
    [notify]. *)
Definition runtime (rows : result (list record)) (notify : result unit) : Runtime :=
  {| TimeLog := record;
     Handler.b64decode := b64decode;
     Handler.utf8_decode := utf8_decode;
     Handler.json_loads := json_loads;
     objects_all := rows;
     to_representation := Ok;
     send_dashboard_update := fun _ _ _ => notify |}.

(** [{}], ["{}"] and ["\"{}\""] in base64, and two broken messages. *)
Definition single_encoded : gmap string string := {[ "data" := "e30=" ]}.
Definition double_encoded : gmap string string := {[ "data" := "Int9Ig==" ]}.
Definition triple_encoded : gmap string string := {[ "data" := "Ilwie31cIiI=" ]}.
Definition not_json : gmap string string := {[ "data" := "bm90IGpzb24=" ]}.
Definition not_base64 : gmap string string := {[ "data" := "e30" ]}.

(** The decoded texts of the first three messages. *)
Definition text_single : string := "{}".
Definition text_double : string := String quote ("{}" +:+ String quote "").
Definition text_triple : string :=
  String quote (String backslash (String quote
    ("{}" +:+ String backslash (String quote (String quote ""))))).

Definition ctx : Context := {| event_id := "1"; timestamp := "2024-01-01T00:00:00Z" |}.

Definition x : record := {[ "employee_id" := VInt 2; "hours" := VInt 8 ]}.
Definition y : record := {[ "employee" := VInt 1; "hours" := VInt 4 ]}.
Definition z : record := {[ "employee_id" := VStr "2"; "hours" := VInt 3 ]}.
Definition anonymous : record := {[ "hours" := VInt 5 ]}.

End Sample.

(* ===================================================================== *)
(** * Properties                                                          *)
(* ===================================================================== *)

(** ** Ordered dictionaries *)

Section OrderedDictFacts.
Context {V : Type}.
Implicit Types (d : odict V) (k : string) (l : list V) (x : V).

Lemma contains_spec d k : contains d k = true <-> k ∈ keys d.
Proof. unfold contains. by rewrite bool_decide_eq_true. Qed.

Lemma getitem_None d k : getitem d k = None <-> k ∉ keys d.
Proof.
  induction d as [|[k' l] d IH]; simpl.
  - split; [intros _; apply not_elem_of_nil | done].
  - rewrite not_elem_of_cons. destruct (decide (k' = k)) as [->|Hne].
    + split; [done | intros [? _]; done].
    + rewrite IH. split; [intros ?; split; [congruence | done] | by intros [_ ?]].
Qed.

Lemma keys_setitem_fresh d k l : k ∉ keys d -> keys (setitem d k l) = keys d ++ [k].
Proof.
  induction d as [|[k' l'] d IH]; simpl; [done|].
  rewrite not_elem_of_cons. intros [Hne Hnin].
  destruct (decide (k' = k)); [congruence|].
  simpl. f_equal. by apply IH.
Qed.

Lemma getitem_setitem d k l k' :
  getitem (setitem d k l) k' = if decide (k = k') then Some l else getitem d k'.
Proof.
  induction d as [|[k0 l0] d IH]; simpl.
  - by destruct (decide (k = k')).
  - destruct (decide (k0 = k)) as [->|Hne]; simpl.
    + by destruct (decide (k = k')).
    + destruct (decide (k0 = k')) as [->|Hne'].
      * destruct (decide (k = k')); [congruence | done].
      * apply IH.
Qed.

Lemma keys_append_at d k x : keys (append_at d k x) = keys d.
Proof.
  induction d as [|[k' l] d IH]; simpl; [done|].
  destruct (decide (k' = k)); simpl; [done|]. f_equal. apply IH.
Qed.

Lemma getitem_append_at d k x k' :
  getitem (append_at d k x) k' =
  if decide (k = k') then (fun l => l ++ [x]) <$> getitem d k' else getitem d k'.
Proof.
  induction d as [|[k0 l0] d IH]; simpl.
  - by destruct (decide (k = k')).
  - destruct (decide (k0 = k)) as [->|Hne]; simpl.
    + destruct (decide (k = k')); [done | done].
    + destruct (decide (k0 = k')) as [->|Hne'].
      * destruct (decide (k = k')); [congruence | done].
      * apply IH.
Qed.
End OrderedDictFacts.

(** ** The grouping loop *)

Section GroupingFacts.
Implicit Types (g : grouped) (r : record) (data : list record) (k : string).

Lemma group_step_key_of g r :
  group_step g r =
  match key_of r with
  | Some k => append_at (if negb (contains g k) then setitem g k [] else g) k r
  | None => g
  end.
Proof. unfold group_step, key_of. by destruct (is_not_None (emp_id r)). Qed.

Lemma group_logs_snoc data r :
  group_logs (data ++ [r]) = group_step (group_logs data) r.
Proof. unfold group_logs. by rewrite fold_left_app. Qed.

Lemma keys_group_step g r :
  keys (group_step g r) =
  match key_of r with
  | Some k => if decide (k ∈ keys g) then keys g else keys g ++ [k]
  | None => keys g
  end.
Proof.
  rewrite group_step_key_of. destruct (key_of r) as [k|]; [|done].
  rewrite keys_append_at. unfold contains.
  destruct (decide (k ∈ keys g)) as [Hin|Hnin].
  - by rewrite bool_decide_eq_true_2.
  - rewrite bool_decide_eq_false_2 by done. simpl. by apply keys_setitem_fresh.
Qed.

Lemma getitem_group_step g r k :
  getitem (group_step g r) k =
  if decide (key_of r = Some k)
  then Some (default [] (getitem g k) ++ [r])
  else getitem g k.
Proof.
  rewrite group_step_key_of. destruct (key_of r) as [k'|].
  - rewrite getitem_append_at. unfold contains.
    destruct (decide (k' = k)) as [->|Hne].
    + rewrite decide_True by done.
      destruct (decide (k ∈ keys g)) as [Hin|Hnin].
      * rewrite bool_decide_eq_true_2 by done. simpl.
        destruct (getitem g k) as [l|] eqn:Hg; [done|].
        by apply getitem_None in Hg.
      * rewrite bool_decide_eq_false_2 by done. simpl.
        rewrite getitem_setitem, decide_True by done.
        apply getitem_None in Hnin. by rewrite Hnin.
    + rewrite decide_False by congruence.
      destruct (negb _); [|done].
      by rewrite getitem_setitem, decide_False.
  - by rewrite decide_False.
Qed.

Lemma elem_of_first_seen (ks : list string) k : k ∈ first_seen ks <-> k ∈ ks.
Proof.
  induction ks as [|k' ks IH]; simpl; [done|].
  rewrite !elem_of_cons, list_elem_of_filter, IH.
  destruct (decide (k = k')) as [->|Hne]; [tauto|]. tauto.
Qed.

Lemma first_seen_snoc (ks : list string) k :
  first_seen (ks ++ [k]) = if decide (k ∈ ks) then first_seen ks else first_seen ks ++ [k].
Proof.
  induction ks as [|k' ks IH].
  - destruct (decide (k ∈ [])) as [Hin|_]; [by apply not_elem_of_nil in Hin | done].
  - change (first_seen ((k' :: ks) ++ [k]))
      with (k' :: filter (fun k0 => k0 <> k') (first_seen (ks ++ [k]))).
    rewrite IH. change (first_seen (k' :: ks))
      with (k' :: filter (fun k0 => k0 <> k') (first_seen ks)).
    destruct (decide (k ∈ k' :: ks)) as [Hin|Hnin];
      destruct (decide (k ∈ ks)) as [Hin'|Hnin']; try done.
    + apply elem_of_cons in Hin as [->|?]; [|done].
      rewrite filter_app, filter_cons_False by (intros ?; done).
      by rewrite filter_nil, app_nil_r.
    + exfalso. apply Hnin. by apply list_elem_of_further.
    + rewrite filter_app, filter_cons_True, filter_nil; [done|].
      intros ->. apply Hnin, list_elem_of_here.
Qed.

Lemma NoDup_first_seen (ks : list string) : NoDup (first_seen ks).
Proof.
  induction ks as [|k ks IH]; simpl; [constructor|].
  constructor.
  - rewrite list_elem_of_filter. intros [Hne _]. by apply Hne.
  - by apply NoDup_filter.
Qed.

(** The keys of the grouped result, in dictionary order. *)
Lemma keys_group_logs data :
  keys (group_logs data) = first_seen (omap key_of data).
Proof.
  induction data as [|r data IH] using rev_ind; [done|].
  rewrite group_logs_snoc, keys_group_step, omap_app, IH. simpl.
  destruct (key_of r) as [k|]; simpl.
  - rewrite first_seen_snoc.
    destruct (decide (k ∈ first_seen (omap key_of data))) as [Hin|Hnin].
    + rewrite decide_True by (by apply elem_of_first_seen). done.
    + rewrite decide_False by (by rewrite <- elem_of_first_seen). done.
  - by rewrite app_nil_r.
Qed.

Lemma elem_of_keys_group_logs data k :
  k ∈ keys (group_logs data) <-> exists r, r ∈ data /\ key_of r = Some k.
Proof.
  rewrite keys_group_logs, elem_of_first_seen, list_elem_of_omap. done.
Qed.

Lemma records_of_absent data k :
  k ∉ keys (group_logs data) -> records_of k data = [].
Proof.
  rewrite elem_of_keys_group_logs. intros Hnone. unfold records_of.
  induction data as [|r data IH]; [done|].
  rewrite filter_cons_False.
  - apply IH. intros (r' & Hr' & Hk). apply Hnone. exists r'.
    split; [by apply list_elem_of_further | done].
  - intros Hk. apply Hnone. exists r. split; [apply list_elem_of_here | done].
Qed.

(** The list stored under a key. *)
Lemma getitem_group_logs data k :
  getitem (group_logs data) k =
  if decide (k ∈ keys (group_logs data)) then Some (records_of k data) else None.
Proof.
  induction data as [|r data IH] using rev_ind.
  - rewrite decide_False by apply not_elem_of_nil. done.
  - rewrite group_logs_snoc, getitem_group_step, keys_group_step, IH.
    unfold records_of. rewrite filter_app.
    destruct (decide (key_of r = Some k)) as [Hk|Hk].
    + rewrite Hk, filter_cons_True by done.
      destruct (decide (k ∈ keys (group_logs data))) as [Hin|Hnin]; simpl.
      * rewrite decide_True by done. done.
      * rewrite decide_True by (rewrite elem_of_app, list_elem_of_singleton; by right).
        fold (records_of k data). by rewrite records_of_absent.
    + rewrite filter_cons_False, filter_nil, app_nil_r by done.
      destruct (key_of r) as [k'|]; [|done].
      destruct (decide (k' ∈ keys (group_logs data))); [done|].
      destruct (decide (k ∈ keys (group_logs data))) as [Hin|Hnin].
      * rewrite decide_True by (rewrite elem_of_app; by left). done.
      * rewrite decide_False; [done|].
        rewrite elem_of_app, list_elem_of_singleton. intros [?| ->]; [done | congruence].
Qed.
End GroupingFacts.

(** ** The handler, stage by stage *)

Arguments msg_str : simpl never.
Arguments group_logs : simpl never.

Lemma M_bind_assoc {A B C : Type} (m : M A) (f : A -> M B) (g : B -> M C) :
  (m ≫= f) ≫= g = m ≫= (fun x => f x ≫= g).
Proof.
  unfold mbind, M_bind. destruct m as [t [a|e]]; [|done].
  destruct (f a) as [t1 [b|e]]; [|done].
  destruct (g b) as [t2 r]. by rewrite app_assoc.
Qed.

Lemma M_bind_ext {A B : Type} (m : M A) (f g : A -> M B) :
  (forall x, f x = g x) -> m ≫= f = m ≫= g.
Proof.
  intros Hfg. unfold mbind, M_bind. destruct m as [t [a|e]]; [|done]. by rewrite Hfg.
Qed.

Section HandlerFacts.
Variable rt : Runtime.
Implicit Types (event : gmap string string) (context : Context) (e : Exception).

(** The body is the decoding stage followed by the rest, which does not
    depend on what was decoded. *)
Lemma body_stages event :
  body rt event = decode_message rt event ≫= (fun _ => fetch_group_forward rt).
Proof.
  unfold body, decode_message. symmetry.
  do 5 (etrans; [apply M_bind_assoc|]; apply M_bind_ext; intros ?).
  reflexivity.
Qed.

Lemma decode_message_decoded event d b raw :
  event !! "data" = Some d -> b64decode rt d = Ok b -> utf8_decode rt b = Ok raw ->
  decode_message rt event =
    ([CB64decode d; CUtf8decode b; CInfo ("Raw message received: " +:+ raw); CLoads raw]
       ++ match json_loads rt raw with Ok (JStr s) => [CLoads s] | _ => [] end,
     match json_loads rt raw with Ok (JStr s) => json_loads rt s | r => r end).
Proof.
  intros Hd Hb Hraw. unfold decode_message, event_getitem. rewrite Hd.
  unfold perform, logger_info, loads, mbind, M_bind, mret, M_ret. simpl.
  rewrite Hb, Hraw.
  destruct (json_loads rt raw) as [first_pass|e]; [|done].
  destruct first_pass; simpl; try done.
Qed.

(** Once the message is decoded, the handler goes on with the guarded
    pipeline, whatever the decoded value. *)
Lemma handler_after_decode event context v :
  outcome (decode_message rt event) = Ok v ->
  employee_timelog_list rt event context =
    (trace (decode_message rt event) ++ trace (guarded_pipeline rt),
     outcome (guarded_pipeline rt)).
Proof.
  unfold employee_timelog_list, guarded_pipeline. rewrite body_stages.
  destruct (decode_message rt event) as [t [v'|e]]; simpl; [intros _|done].
  unfold mbind, M_bind, try_except.
  destruct (fetch_group_forward rt) as [t' [[]|e]]; simpl; [done|].
  by rewrite app_assoc.
Qed.

(** A failure of the decoding stage is logged once and raised again. *)
Lemma handler_decode_raises event context e :
  outcome (decode_message rt event) = Raise e ->
  employee_timelog_list rt event context =
    (trace (decode_message rt event)
       ++ [CException ("Error processing employee_timelog_list message: " +:+ exc_text e) e],
     Raise e).
Proof.
  unfold employee_timelog_list. rewrite body_stages.
  destruct (decode_message rt event) as [t [v'|e']]; simpl; [done|].
  by intros [= ->].
Qed.

(** The pipeline after decoding, in full. *)
Lemma fetch_group_forward_eq :
  fetch_group_forward rt =
    match objects_all rt with
    | Raise e => ([CInfo "Fetching all employee timesheet objects..."; CObjectsAll], Raise e)
    | Ok logs =>
        match map_result (to_representation rt) logs with
        | Raise e =>
            ([CInfo "Fetching all employee timesheet objects..."; CObjectsAll;
              CSerializerData], Raise e)
        | Ok data =>
            let p := {| timelogs := group_logs data; message := msg_str data |} in
            let t := [CInfo "Fetching all employee timesheet objects..."; CObjectsAll;
                      CSerializerData; CInfo (msg_str data);
                      CSend "all" "bulk_timelog_lookup" p] in
            match send_dashboard_update rt "all" "bulk_timelog_lookup" p with
            | Raise e => (t, Raise e)
            | Ok _ =>
                (t ++ [CInfo "Sent dashboard update with grouped employee timelogs."],
                 Ok tt)
            end
        end
    end.
Proof.
  unfold fetch_group_forward, serializer_data, perform, logger_info, mbind, M_bind. simpl.
  destruct (objects_all rt) as [logs|e]; [|done].
  destruct (map_result (to_representation rt) logs) as [data|e]; [|done]. simpl.
  destruct (send_dashboard_update rt _ _ _) as [[]|e]; done.
Qed.

(** The [except] clause logs and raises the very exception it caught. *)
Lemma try_except_on_exception (m : M unit) :
  try_except m (on_exception) =
    match outcome m with
    | Ok _ => m
    | Raise e =>
        (trace m ++ [CException ("Error processing employee_timelog_list message: "
                                   +:+ exc_text e) e], Raise e)
    end.
Proof. destruct m as [t [[]|e]]; done. Qed.
End HandlerFacts.

(** ** Identifiers and keys *)

Section KeyFacts.
Implicit Types (r : record) (v : value) (k : string).

Lemma pretty_N_go_nonempty (x : N) (s : string) : s <> "" -> pretty_N_go x s <> "".
Proof.
  revert s. induction (N.lt_wf_0 x) as [x _ IH]. intros s Hs.
  destruct (decide (x = 0)%N) as [->|Hx].
  - by rewrite pretty_N_go_0.
  - rewrite pretty_N_go_step by lia. apply IH; [apply N.div_lt; lia | done].
Qed.

Lemma pretty_N_nonempty (x : N) : pretty x <> "".
Proof.
  unfold pretty, pretty_N. destruct (decide (x = 0)%N); [done|].
  rewrite pretty_N_go_step by lia. by apply pretty_N_go_nonempty.
Qed.

(** [str(n)] of an integer is never empty. *)
Lemma str_int_nonempty (n : Z) : str (VInt n) <> "".
Proof.
  simpl. unfold pretty, pretty_Z. destruct n as [|p|p]; [done| |done].
  apply pretty_N_nonempty.
Qed.

(** The only values other than [None] whose [str()] is empty. *)
Lemma str_empty v :
  v <> VNone -> str v = "" -> v = VStr "" \/ exists b, v = VObj b "".
Proof.
  destruct v as [|[]|n|s|b t]; simpl; intros Hv Hs; try done.
  - by apply str_int_nonempty in Hs.
  - left. by rewrite Hs.
  - right. exists b. by rewrite Hs.
Qed.

Lemma emp_id_cases r :
  emp_id r = get r "employee_id" \/ emp_id r = get r "employee".
Proof. unfold emp_id, or_. destruct (truthy _); [by left | by right]. Qed.

(** A truthy [employee_id] is the identifier, whatever [employee] holds. *)
Lemma emp_id_truthy r :
  truthy (get r "employee_id") = true -> emp_id r = get r "employee_id".
Proof. unfold emp_id, or_. by intros ->. Qed.

(** Without an [employee_id] the identifier is [employee]. *)
Lemma emp_id_fallback r :
  get r "employee_id" = VNone -> emp_id r = get r "employee".
Proof. unfold emp_id, or_. by intros ->. Qed.

Lemma is_not_None_spec v : is_not_None v = true <-> v <> VNone.
Proof. destruct v; simpl; split; congruence. Qed.

Lemma key_of_Some r k :
  key_of r = Some k <-> emp_id r <> VNone /\ k = str (emp_id r).
Proof.
  unfold key_of. destruct (is_not_None (emp_id r)) eqn:Hn.
  - apply is_not_None_spec in Hn. split; [intros [= <-]; done | intros [_ ->]; done].
  - split; [done|]. intros [Hv _]. apply is_not_None_spec in Hv. congruence.
Qed.

Lemma key_of_None r :
  get r "employee_id" = VNone -> get r "employee" = VNone -> key_of r = None.
Proof. intros H1 H2. unfold key_of. by rewrite emp_id_fallback, H2. Qed.

Lemma getitem_elem_of {V : Type} (d : odict V) k (l : list V) :
  NoDup (keys d) -> (k, l) ∈ d -> getitem d k = Some l.
Proof.
  induction d as [|[k' l'] d IH]; simpl; intros Hnd Hin.
  - by apply not_elem_of_nil in Hin.
  - apply NoDup_cons in Hnd as [Hk' Hnd].
    apply elem_of_cons in Hin as [[= -> ->]|Hin].
    + by rewrite decide_True.
    + destruct (decide (k' = k)) as [->|Hne]; [|by apply IH].
      exfalso. apply Hk'. unfold keys. apply list_elem_of_fmap. by exists (k, l).
Qed.

Lemma NoDup_keys_group_logs (data : list record) : NoDup (keys (group_logs data)).
Proof. rewrite keys_group_logs. apply NoDup_first_seen. Qed.

(** Every stored group is the list of the records filed under its key. *)
Lemma group_logs_elem_of (data : list record) k (l : list record) :
  (k, l) ∈ group_logs data -> l = records_of k data.
Proof.
  intros Hin. pose proof Hin as Hget.
  apply getitem_elem_of in Hget; [|apply NoDup_keys_group_logs].
  rewrite getitem_group_logs in Hget.
  destruct (decide _); congruence.
Qed.
End KeyFacts.

(** ** The grouping loop: identifiers, keys and order *)

(** C1.  The loop reads [employee_id] with [or], which tests the truth
    value and not the presence of the field.  A record whose
    [employee_id] is the integer [0] and whose [employee] is [7] is filed
    under ["7"], not under ["0"]; the same record without [employee] is
    skipped although its [employee_id] is present; and a record whose
    only identifying field is [employee = 0] is filed under ["0"], so the
    same value is accepted in one field and passed over in the other. *)
Theorem C1_falsy_employee_id_is_passed_over :
  let r : record := {[ "employee_id" := VInt 0; "employee" := VInt 7 ]} in
  let r' : record := {[ "employee_id" := VInt 0 ]} in
  let r'' : record := {[ "employee" := VInt 0 ]} in
  get r "employee_id" = VInt 0 /\
  group_logs [r] = [("7", [r])] /\
  group_logs [r'] = [] /\
  group_logs [r''] = [("0", [r''])].
Proof. vm_compute. repeat split; reflexivity. Qed.

(** C2, as stated, fails: a record whose identifier is the empty string
    is filed under the empty key. *)
Lemma C2_empty_key_counterexample :
  ~ (forall (data : list record) (k : string), k ∈ keys (group_logs data) -> k <> "").
Proof.
  intros Hclaim.
  apply (Hclaim [ {[ "employee" := VStr "" ]} ] ""); [|done].
  replace (keys (group_logs [ {[ "employee" := VStr "" ]} ])) with [""]
    by (vm_compute; reflexivity).
  apply list_elem_of_here.
Qed.

(** C2, amended.  Every key of the grouped result is the [str()] form of
    a value other than [None] read from the [employee_id] or the
    [employee] field of one of the records; it is empty only when that
    value's string form is empty (the empty string, or an object that
    prints as nothing), never for an integer; and the integer [5] and the
    string ["5"] are filed under the same key ["5"]. *)
Theorem C2_keys_are_identifier_strings :
  (forall (data : list record) (k : string),
      k ∈ keys (group_logs data) ->
      exists r v, r ∈ data /\
        (v = get r "employee_id" \/ v = get r "employee") /\
        v <> VNone /\ k = str v /\
        (k = "" -> v = VStr "" \/ exists b, v = VObj b "")) /\
  (forall n : Z, str (VInt n) <> "") /\
  (forall r r' : record,
      get r "employee_id" = VInt 5 -> get r' "employee_id" = VStr "5" ->
      group_logs [r; r'] = [("5", [r; r'])]).
Proof.
  split; [|split].
  - intros data k Hk. apply elem_of_keys_group_logs in Hk as (r & Hr & Hk).
    apply key_of_Some in Hk as [Hv ->].
    exists r, (emp_id r). split; [done|]. split; [apply emp_id_cases|].
    split; [done|]. split; [done|]. intros Hs. by apply str_empty.
  - apply str_int_nonempty.
  - intros r r' Hr Hr'.
    assert (key_of r = Some "5") as Hk.
    { unfold key_of. rewrite emp_id_truthy by (by rewrite Hr). by rewrite Hr. }
    assert (key_of r' = Some "5") as Hk'.
    { unfold key_of. rewrite emp_id_truthy by (by rewrite Hr'). by rewrite Hr'. }
    unfold group_logs. simpl. rewrite !group_step_key_of, Hk. simpl.
    rewrite Hk'. reflexivity.
Qed.

Lemma C2_keys_witness :
  group_logs [ {[ "employee_id" := VInt 5 ]} ; {[ "employee_id" := VStr "5" ]} ]
  = [("5", [ {[ "employee_id" := VInt 5 ]} ; {[ "employee_id" := VStr "5" ]} ])].
Proof.
  apply (proj2 (proj2 C2_keys_are_identifier_strings)); reflexivity.
Defined.

(** C4.  The keys of the grouped result come in the order in which the
    identifiers first appear in the input, and the list stored under a
    key holds exactly the records filed under it, in input order and
    with repetitions kept; the input [(2,x), (1,y), (2,z)] gives keys
    ["2"], ["1"] and ["2"] -> [x, z]. *)
Theorem C4_first_appearance_order :
  (forall data : list record,
      keys (group_logs data) = first_seen (omap key_of data) /\
      forall k : string,
        getitem (group_logs data) k =
        if decide (k ∈ keys (group_logs data)) then Some (records_of k data) else None) /\
  (forall x y z : record,
      key_of x = Some "2" -> key_of y = Some "1" -> key_of z = Some "2" ->
      keys (group_logs [x; y; z]) = ["2"; "1"] /\
      group_logs [x; y; z] = [("2", [x; z]); ("1", [y])]).
Proof.
  split.
  - intros data. split; [apply keys_group_logs | intros k; apply getitem_group_logs].
  - intros x y z Hx Hy Hz.
    assert (group_logs [x; y; z] = [("2", [x; z]); ("1", [y])]) as ->; [|done].
    unfold group_logs. simpl. rewrite !group_step_key_of, Hx. simpl.
    rewrite Hy. simpl. rewrite Hz. reflexivity.
Qed.

Lemma C4_order_witness :
  keys (group_logs [Sample.x; Sample.y; Sample.z]) = ["2"; "1"] /\
  group_logs [Sample.x; Sample.y; Sample.z]
  = [("2", [Sample.x; Sample.z]); ("1", [Sample.y])].
Proof.
  apply (proj2 C4_first_appearance_order); reflexivity.
Defined.

(** ** What each stage calls *)

Section Observations.
Variable rt : Runtime.
Implicit Types (event : gmap string string) (context : Context) (e : Exception).

Lemma trace_pair {A : Type} (t : list call) (r : result A) : trace (t, r) = t.
Proof. done. Qed.

Lemma outcome_pair {A : Type} (t : list call) (r : result A) : outcome (t, r) = r.
Proof. done. Qed.

Lemma bind_trace {A B : Type} (m : M A) (f : A -> M B) :
  trace (m ≫= f) =
  trace m ++ match outcome m with Ok a => trace (f a) | Raise _ => [] end.
Proof.
  unfold mbind, M_bind, trace, outcome. destruct m as [t [a|e]]; simpl.
  - by destruct (f a).
  - by rewrite app_nil_r.
Qed.

Lemma bind_outcome {A B : Type} (m : M A) (f : A -> M B) :
  outcome (m ≫= f) =
  match outcome m with Ok a => outcome (f a) | Raise e => Raise e end.
Proof.
  unfold mbind, M_bind, outcome. destruct m as [t [a|e]]; simpl; [|done].
  by destruct (f a).
Qed.

(** The decoding stage neither fetches, nor forwards, nor logs an error. *)
Lemma decode_message_quiet event :
  forwarded (trace (decode_message rt event)) = [] /\
  fetches (trace (decode_message rt event)) = [] /\
  logged_exceptions (trace (decode_message rt event)) = [].
Proof.
  unfold decode_message, event_getitem.
  destruct (event !! "data") as [d|]; [|done].
  unfold perform, logger_info, loads, mbind, M_bind, mret, M_ret. simpl.
  destruct (b64decode rt d) as [b|e]; [|done].
  destruct (utf8_decode rt b) as [raw|e]; [|done].
  destruct (json_loads rt raw) as [first_pass|e]; [|done].
  destruct first_pass as [| | | |s| |]; simpl; try done.
Qed.

(** The rest of the body parses nothing and logs no error. *)
Lemma fetch_group_forward_quiet :
  loads_of (trace (fetch_group_forward rt)) = [] /\
  logged_exceptions (trace (fetch_group_forward rt)) = [].
Proof.
  rewrite fetch_group_forward_eq.
  destruct (objects_all rt) as [logs|e]; [|done].
  destruct (map_result (to_representation rt) logs) as [data|e]; [|done]. simpl.
  by destruct (send_dashboard_update rt _ _ _).
Qed.

Lemma guarded_pipeline_loads : loads_of (trace (guarded_pipeline rt)) = [].
Proof.
  unfold guarded_pipeline. rewrite try_except_on_exception.
  pose proof fetch_group_forward_quiet as [Hl _].
  destruct (outcome (fetch_group_forward rt)); [done|].
  unfold loads_of in *. simpl. by rewrite omap_app, Hl.
Qed.

Lemma body_logged_exceptions event :
  logged_exceptions (trace (body rt event)) = [].
Proof.
  rewrite body_stages, bind_trace. unfold logged_exceptions. rewrite omap_app.
  pose proof (decode_message_quiet event) as (_ & _ & Hd).
  pose proof fetch_group_forward_quiet as [_ Hf].
  unfold logged_exceptions in *. rewrite Hd.
  by destruct (outcome (decode_message rt event)).
Qed.

(** The guarded pipeline when the store and the serializer answer. *)
Lemma guarded_pipeline_served logs data :
  objects_all rt = Ok logs -> map_result (to_representation rt) logs = Ok data ->
  let p := {| timelogs := group_logs data; message := msg_str data |} in
  forwarded (trace (guarded_pipeline rt)) = [("all", "bulk_timelog_lookup", p)] /\
  fetches (trace (guarded_pipeline rt)) = [tt] /\
  CInfo (msg_str data) ∈ trace (guarded_pipeline rt) /\
  outcome (guarded_pipeline rt) =
    match send_dashboard_update rt "all" "bulk_timelog_lookup" p with
    | Ok _ => Ok tt
    | Raise e => Raise e
    end.
Proof.
  intros Hlogs Hdata p. unfold guarded_pipeline.
  rewrite try_except_on_exception, fetch_group_forward_eq, Hlogs, Hdata. simpl.
  fold p. destruct (send_dashboard_update rt "all" "bulk_timelog_lookup" p) as [[]|e];
    simpl; repeat split; try done;
    do 3 apply list_elem_of_further; apply list_elem_of_here.
Qed.

(** The forwarded calls and the fetches of a run whose message decodes
    are those of the guarded pipeline. *)
Lemma handler_downstream event context v :
  outcome (decode_message rt event) = Ok v ->
  forwarded (trace (employee_timelog_list rt event context))
    = forwarded (trace (guarded_pipeline rt)) /\
  fetches (trace (employee_timelog_list rt event context))
    = fetches (trace (guarded_pipeline rt)) /\
  loads_of (trace (employee_timelog_list rt event context))
    = loads_of (trace (decode_message rt event)) /\
  outcome (employee_timelog_list rt event context) = outcome (guarded_pipeline rt).
Proof.
  intros Hv. rewrite (handler_after_decode rt event context v Hv).
  pose proof (decode_message_quiet event) as (Hf & Hq & _).
  rewrite trace_pair, outcome_pair.
  unfold forwarded, fetches, loads_of in *. rewrite !omap_app, Hf, Hq.
  fold (loads_of (trace (guarded_pipeline rt))).
  by rewrite guarded_pipeline_loads, app_nil_r.
Qed.
End Observations.

(** ** Failures *)

Section Failures.
Variable rt : Runtime.
Implicit Types (event : gmap string string) (context : Context) (e : Exception).

Lemma fails_with_intro event context e :
  outcome (body rt event) = Raise e -> fails_with rt event context e.
Proof.
  intros He. split; [|done].
  unfold employee_timelog_list. by rewrite try_except_on_exception, He.
Qed.

Lemma body_outcome event :
  outcome (body rt event) =
  match outcome (decode_message rt event) with
  | Ok _ => outcome (fetch_group_forward rt)
  | Raise e => Raise e
  end.
Proof. by rewrite body_stages, bind_outcome. Qed.

Lemma decode_message_outcome event raw :
  decoded rt event raw ->
  outcome (decode_message rt event) =
    match json_loads rt raw with Ok (JStr s) => json_loads rt s | r => r end /\
  loads_of (trace (decode_message rt event)) =
    raw :: match json_loads rt raw with Ok (JStr s) => [s] | _ => [] end.
Proof.
  intros (d & b & Hd & Hb & Hraw).
  rewrite (decode_message_decoded rt event d b raw Hd Hb Hraw).
  rewrite trace_pair, outcome_pair. split; [done|].
  destruct (json_loads rt raw) as [[| | | |s| |]|e]; done.
Qed.
End Failures.

(** ** Decoding the message *)

(** C5.  When the decoded text parses to a value that is not a string,
    that value is the payload and [json.loads] ran once; when it parses
    to a string [s] that itself parses to [w], the payload is [w] and
    [json.loads] ran exactly twice, on the text and on [s]. *)
Theorem C5_one_pass_or_one_extra_pass (rt : Runtime) (event : gmap string string)
    (context : Context) (raw : string) :
  decoded rt event raw ->
  (forall v, json_loads rt raw = Ok v -> isinstance_str v = false ->
     outcome (decode_message rt event) = Ok v /\
     loads_of (trace (decode_message rt event)) = [raw] /\
     loads_of (trace (employee_timelog_list rt event context)) = [raw]) /\
  (forall s w, json_loads rt raw = Ok (JStr s) -> json_loads rt s = Ok w ->
     outcome (decode_message rt event) = Ok w /\
     loads_of (trace (decode_message rt event)) = [raw; s] /\
     loads_of (trace (employee_timelog_list rt event context)) = [raw; s]).
Proof.
  intros Hdec. destruct (decode_message_outcome rt event raw Hdec) as [Hout Hloads].
  split.
  - intros v Hv Hns. rewrite Hv in Hout, Hloads.
    assert (outcome (decode_message rt event) = Ok v) as Hok
      by (rewrite Hout; by destruct v).
    assert (loads_of (trace (decode_message rt event)) = [raw]) as Hone
      by (rewrite Hloads; by destruct v).
    destruct (handler_downstream rt event context v Hok) as (_ & _ & Hl & _).
    by rewrite Hl.
  - intros s w Hs Hw. rewrite Hs in Hout, Hloads. rewrite Hw in Hout.
    destruct (handler_downstream rt event context w Hout) as (_ & _ & Hl & _).
    by rewrite Hl.
Qed.

Lemma C5_passes_witness :
  let rt := Sample.runtime (Ok []) (Ok tt) in
  (outcome (decode_message rt Sample.single_encoded) = Ok (JDict []) /\
   loads_of (trace (decode_message rt Sample.single_encoded)) = [Sample.text_single] /\
   loads_of (trace (employee_timelog_list rt Sample.single_encoded Sample.ctx))
     = [Sample.text_single]) /\
  (outcome (decode_message rt Sample.double_encoded) = Ok (JDict []) /\
   loads_of (trace (decode_message rt Sample.double_encoded))
     = [Sample.text_double; "{}"] /\
   loads_of (trace (employee_timelog_list rt Sample.double_encoded Sample.ctx))
     = [Sample.text_double; "{}"]).
Proof.
  intros rt. split.
  - apply (C5_one_pass_or_one_extra_pass rt Sample.single_encoded Sample.ctx
             Sample.text_single).
    + eexists _, _. repeat split; vm_compute; reflexivity.
    + reflexivity.
    + reflexivity.
  - apply (C5_one_pass_or_one_extra_pass rt Sample.double_encoded Sample.ctx
             Sample.text_double).
    + eexists _, _. repeat split; vm_compute; reflexivity.
    + reflexivity.
    + reflexivity.
Defined.

(** C10.  A payload encoded three times or more is not rejected: when
    the text parses to a string whose content parses to a string again,
    [json.loads] runs twice and no more, the payload is that second
    string, and the handler goes on with the fetch, the grouping and the
    forward as it does after a payload that is not a string: same calls
    to the store and to the notifier, same outcome, and success whenever
    the store, the serializer and the notifier answer. *)
Theorem C10_triple_encoded_payload_goes_through (rt : Runtime)
    (event : gmap string string) (context : Context) (raw s t : string) :
  decoded rt event raw ->
  json_loads rt raw = Ok (JStr s) ->
  json_loads rt s = Ok (JStr t) ->
  outcome (decode_message rt event) = Ok (JStr t) /\
  loads_of (trace (employee_timelog_list rt event context)) = [raw; s] /\
  employee_timelog_list rt event context =
    (trace (decode_message rt event) ++ trace (guarded_pipeline rt),
     outcome (guarded_pipeline rt)) /\
  (forall event' context' v,
     outcome (decode_message rt event') = Ok v -> isinstance_str v = false ->
     outcome (employee_timelog_list rt event context)
       = outcome (employee_timelog_list rt event' context') /\
     fetches (trace (employee_timelog_list rt event context))
       = fetches (trace (employee_timelog_list rt event' context')) /\
     forwarded (trace (employee_timelog_list rt event context))
       = forwarded (trace (employee_timelog_list rt event' context'))) /\
  (forall logs data,
     objects_all rt = Ok logs -> map_result (to_representation rt) logs = Ok data ->
     send_dashboard_update rt "all" "bulk_timelog_lookup"
       {| timelogs := group_logs data; message := msg_str data |} = Ok tt ->
     outcome (employee_timelog_list rt event context) = Ok tt).
Proof.
  intros Hdec Hs Ht.
  destruct (decode_message_outcome rt event raw Hdec) as [Hout Hloads].
  rewrite Hs in Hout, Hloads. rewrite Ht in Hout.
  destruct (handler_downstream rt event context (JStr t) Hout) as (Hf & Hq & Hl & Ho).
  split; [done|]. split; [by rewrite Hl|].
  split; [by apply (handler_after_decode rt event context (JStr t))|].
  split.
  - intros event' context' v Hv _.
    destruct (handler_downstream rt event' context' v Hv) as (Hf' & Hq' & _ & Ho').
    by rewrite Hf, Hq, Ho, Hf', Hq', Ho'.
  - intros logs data Hlogs Hdata Hsend. rewrite Ho.
    destruct (guarded_pipeline_served rt logs data Hlogs Hdata) as (_ & _ & _ & Hg).
    by rewrite Hg, Hsend.
Qed.

Lemma C10_triple_witness :
  let rt := Sample.runtime (Ok [Sample.x]) (Ok tt) in
  outcome (decode_message rt Sample.triple_encoded) = Ok (JStr "{}") /\
  loads_of (trace (employee_timelog_list rt Sample.triple_encoded Sample.ctx))
    = [Sample.text_triple; Sample.text_double] /\
  outcome (employee_timelog_list rt Sample.triple_encoded Sample.ctx) = Ok tt.
Proof.
  intros rt.
  destruct (C10_triple_encoded_payload_goes_through rt Sample.triple_encoded Sample.ctx
              Sample.text_triple Sample.text_double "{}") as (H1 & H2 & _ & _ & H5).
  - eexists _, _. repeat split; vm_compute; reflexivity.
  - reflexivity.
  - reflexivity.
  - split; [exact H1|]. split; [exact H2|].
    apply (H5 [Sample.x] [Sample.x]); reflexivity.
Defined.

(** C7.  Two messages that both decode and parse lead to the same
    downstream behaviour, whatever they carry: one call to the store,
    which takes no argument, the same forwarded calls, the same
    outcome, and indeed the same calls, one for one, after the decoding
    stage. *)
Theorem C7_message_content_does_not_interfere (rt : Runtime)
    (event1 event2 : gmap string string) (context1 context2 : Context) (v1 v2 : json) :
  outcome (decode_message rt event1) = Ok v1 ->
  outcome (decode_message rt event2) = Ok v2 ->
  outcome (employee_timelog_list rt event1 context1)
    = outcome (employee_timelog_list rt event2 context2) /\
  fetches (trace (employee_timelog_list rt event1 context1)) = [tt] /\
  fetches (trace (employee_timelog_list rt event2 context2)) = [tt] /\
  forwarded (trace (employee_timelog_list rt event1 context1))
    = forwarded (trace (employee_timelog_list rt event2 context2)) /\
  exists rest,
    trace (employee_timelog_list rt event1 context1)
      = trace (decode_message rt event1) ++ rest /\
    trace (employee_timelog_list rt event2 context2)
      = trace (decode_message rt event2) ++ rest.
Proof.
  intros H1 H2.
  destruct (handler_downstream rt event1 context1 v1 H1) as (Hf1 & Hq1 & _ & Ho1).
  destruct (handler_downstream rt event2 context2 v2 H2) as (Hf2 & Hq2 & _ & Ho2).
  assert (fetches (trace (guarded_pipeline rt)) = [tt]) as Hq.
  { unfold guarded_pipeline.
    rewrite try_except_on_exception, fetch_group_forward_eq.
    destruct (objects_all rt) as [logs|e]; [|done].
    destruct (map_result (to_representation rt) logs) as [data|e]; [|done]. simpl.
    by destruct (send_dashboard_update rt _ _ _). }
  split; [by rewrite Ho1, Ho2|]. split; [by rewrite Hq1|]. split; [by rewrite Hq2|].
  split; [by rewrite Hf1, Hf2|].
  exists (trace (guarded_pipeline rt)).
  by rewrite (handler_after_decode rt event1 context1 v1 H1),
             (handler_after_decode rt event2 context2 v2 H2).
Qed.

Lemma C7_noninterference_witness :
  let rt := Sample.runtime (Ok [Sample.x; Sample.y]) (Ok tt) in
  outcome (employee_timelog_list rt Sample.single_encoded Sample.ctx)
    = outcome (employee_timelog_list rt Sample.triple_encoded Sample.ctx) /\
  forwarded (trace (employee_timelog_list rt Sample.single_encoded Sample.ctx))
    = forwarded (trace (employee_timelog_list rt Sample.triple_encoded Sample.ctx)).
Proof.
  intros rt.
  destruct (C7_message_content_does_not_interfere rt
              Sample.single_encoded Sample.triple_encoded Sample.ctx Sample.ctx
              (JDict []) (JStr "{}")) as (H1 & _ & _ & H4 & _).
  - reflexivity.
  - reflexivity.
  - split; [exact H1 | exact H4].
Defined.

(** ** Fetching, counting and forwarding *)

Section Coverage.
Implicit Types (g : grouped) (r : record) (data : list record) (k : string).

Lemma grouped_records_setitem_fresh g k :
  k ∉ keys g -> grouped_records (setitem g k []) = grouped_records g.
Proof.
  unfold grouped_records. induction g as [|[k' l] g IH]; simpl; [done|].
  rewrite not_elem_of_cons. intros [Hne Hnin].
  destruct (decide (k' = k)); [congruence|]. simpl. f_equal. by apply IH.
Qed.

Lemma grouped_records_append_at g k r :
  k ∈ keys g -> grouped_records (append_at g k r) ≡ₚ grouped_records g ++ [r].
Proof.
  unfold grouped_records. induction g as [|[k' l] g IH]; simpl; intros Hin.
  - by apply not_elem_of_nil in Hin.
  - destruct (decide (k' = k)) as [->|Hne]; simpl.
    + rewrite <- !app_assoc. apply Permutation_app_head, Permutation_app_comm.
    + apply elem_of_cons in Hin as [->|Hin]; [done|].
      rewrite (IH Hin). by rewrite app_assoc.
Qed.

Lemma grouped_records_group_step g r :
  grouped_records (group_step g r) ≡ₚ
  grouped_records g ++ (if decide (is_Some (key_of r)) then [r] else []).
Proof.
  rewrite group_step_key_of. destruct (key_of r) as [k|] eqn:Hk.
  - rewrite decide_True by done. unfold contains.
    destruct (decide (k ∈ keys g)) as [Hin|Hnin].
    + rewrite bool_decide_eq_true_2 by done. simpl. by apply grouped_records_append_at.
    + rewrite bool_decide_eq_false_2 by done. simpl.
      rewrite grouped_records_append_at.
      * by rewrite grouped_records_setitem_fresh.
      * rewrite keys_setitem_fresh by done. rewrite elem_of_app, list_elem_of_singleton.
        by right.
  - rewrite decide_False by (by intros [? ?]). by rewrite app_nil_r.
Qed.

(** The grouped result holds the records that have an identifier, each
    as often as it occurs in the input, and no other record. *)
Lemma grouped_records_group_logs data :
  grouped_records (group_logs data) ≡ₚ filter (fun r => is_Some (key_of r)) data.
Proof.
  induction data as [|r data IH] using rev_ind; [done|].
  rewrite group_logs_snoc, grouped_records_group_step, IH, filter_app.
  apply Permutation_app_head.
  destruct (decide (is_Some (key_of r))).
  - by rewrite filter_cons_True.
  - by rewrite filter_cons_False.
Qed.
End Coverage.

(** C3.  On a run where the message decodes and the store and the
    serializer answer with [data], the forwarded summary counts every
    record of [data], while a record without [employee_id] and without
    [employee] is in no group: the groups hold exactly the records that
    have an identifier. *)
Theorem C3_dropped_records_are_still_counted (rt : Runtime)
    (event : gmap string string) (context : Context) (v : json)
    (logs : list (TimeLog rt)) (data : list record) :
  outcome (decode_message rt event) = Ok v ->
  objects_all rt = Ok logs ->
  map_result (to_representation rt) logs = Ok data ->
  forwarded (trace (employee_timelog_list rt event context)) =
    [("all", "bulk_timelog_lookup",
      {| timelogs := group_logs data;
         message := "Bulk Timesheet Lookup: found " +:+ pretty (length data)
                      +:+ " timelog records." |})] /\
  (forall r k l,
     get r "employee_id" = VNone -> get r "employee" = VNone ->
     (k, l) ∈ group_logs data -> r ∉ l) /\
  grouped_records (group_logs data) ≡ₚ filter (fun r => is_Some (key_of r)) data.
Proof.
  intros Hv Hlogs Hdata.
  destruct (handler_downstream rt event context v Hv) as (Hf & _ & _ & _).
  destruct (guarded_pipeline_served rt logs data Hlogs Hdata) as (Hg & _ & _ & _).
  split; [by rewrite Hf, Hg|]. split; [|apply grouped_records_group_logs].
  intros r k l Hid Hemp Hin Hr.
  apply group_logs_elem_of in Hin as ->.
  unfold records_of in Hr. apply list_elem_of_filter in Hr as [Hk _].
  by rewrite (key_of_None r Hid Hemp) in Hk.
Qed.

Lemma C3_three_records_witness :
  let rt := Sample.runtime (Ok [Sample.x; Sample.anonymous; Sample.y]) (Ok tt) in
  forwarded (trace (employee_timelog_list rt Sample.single_encoded Sample.ctx)) =
    [("all", "bulk_timelog_lookup",
      {| timelogs := [("2", [Sample.x]); ("1", [Sample.y])];
         message := "Bulk Timesheet Lookup: found 3 timelog records." |})].
Proof.
  intros rt.
  apply (C3_dropped_records_are_still_counted rt Sample.single_encoded Sample.ctx
           (JDict []) [Sample.x; Sample.anonymous; Sample.y]
           [Sample.x; Sample.anonymous; Sample.y]); reflexivity.
Defined.

(** C8.  When the store returns no record, the summary reads "found 0
    timelog records.", the grouped result is the empty mapping, and the
    forward call is made all the same. *)
Theorem C8_empty_record_set (rt : Runtime) (event : gmap string string)
    (context : Context) (v : json) :
  outcome (decode_message rt event) = Ok v ->
  objects_all rt = Ok [] ->
  CInfo "Bulk Timesheet Lookup: found 0 timelog records."
    ∈ trace (employee_timelog_list rt event context) /\
  forwarded (trace (employee_timelog_list rt event context)) =
    [("all", "bulk_timelog_lookup",
      {| timelogs := [];
         message := "Bulk Timesheet Lookup: found 0 timelog records." |})].
Proof.
  intros Hv Hlogs.
  destruct (handler_downstream rt event context v Hv) as (Hf & _ & _ & _).
  destruct (guarded_pipeline_served rt [] [] Hlogs eq_refl) as (Hg & _ & Hmsg & _).
  split; [|by rewrite Hf, Hg].
  rewrite (handler_after_decode rt event context v Hv), trace_pair, elem_of_app.
  by right.
Qed.

Lemma C8_empty_witness :
  let rt := Sample.runtime (Ok []) (Ok tt) in
  forwarded (trace (employee_timelog_list rt Sample.double_encoded Sample.ctx)) =
    [("all", "bulk_timelog_lookup",
      {| timelogs := [];
         message := "Bulk Timesheet Lookup: found 0 timelog records." |})].
Proof.
  intros rt.
  apply (C8_empty_record_set rt Sample.double_encoded Sample.ctx (JDict []));
    reflexivity.
Defined.

(** C9.  A run that succeeds has fetched and serialized some [data] and
    has called [send_dashboard_update] exactly once, with target "all",
    event type "bulk_timelog_lookup" and the payload made of the grouped
    [data] and of the summary that counts the records of [data]. *)
Theorem C9_one_forward_call_of_fixed_shape (rt : Runtime)
    (event : gmap string string) (context : Context) :
  outcome (employee_timelog_list rt event context) = Ok tt ->
  exists (logs : list (TimeLog rt)) (data : list record),
    objects_all rt = Ok logs /\
    map_result (to_representation rt) logs = Ok data /\
    forwarded (trace (employee_timelog_list rt event context)) =
      [("all", "bulk_timelog_lookup",
        {| timelogs := group_logs data;
           message := "Bulk Timesheet Lookup: found " +:+ pretty (length data)
                        +:+ " timelog records." |})].
Proof.
  intros Hok.
  destruct (outcome (decode_message rt event)) as [v|e] eqn:Hv.
  - destruct (handler_downstream rt event context v Hv) as (Hf & _ & _ & Ho).
    rewrite Ho in Hok. unfold guarded_pipeline in Hok.
    rewrite try_except_on_exception, fetch_group_forward_eq in Hok.
    destruct (objects_all rt) as [logs|e] eqn:Hlogs; [|done].
    destruct (map_result (to_representation rt) logs) as [data|e] eqn:Hdata; [|done].
    exists logs, data. split; [done|]. split; [done|].
    destruct (guarded_pipeline_served rt logs data Hlogs Hdata) as (Hg & _).
    by rewrite Hf, Hg.
  - by rewrite (handler_decode_raises rt event context e Hv) in Hok.
Qed.

Lemma C9_forward_witness :
  let rt := Sample.runtime (Ok [Sample.x; Sample.y; Sample.z]) (Ok tt) in
  exists (logs data : list record),
    objects_all rt = Ok logs /\
    map_result (to_representation rt) logs = Ok data /\
    forwarded (trace (employee_timelog_list rt Sample.single_encoded Sample.ctx)) =
      [("all", "bulk_timelog_lookup",
        {| timelogs := group_logs data;
           message := "Bulk Timesheet Lookup: found " +:+ pretty (length data)
                        +:+ " timelog records." |})].
Proof.
  intros rt.
  apply (C9_one_forward_call_of_fixed_shape rt Sample.single_encoded Sample.ctx).
  reflexivity.
Defined.

(** ** Errors *)

(** C6.  No statement of the body handles an exception: the body logs
    no error, and an exception raised by any call it makes (reading
    [event["data"]], base64, UTF-8, either parse pass, the store, the
    serializer, the notifier) is the outcome of the body.  The [except]
    clause adds one error-level entry and raises the same exception
    again, so the invocation fails with it; a run that raises nothing
    is the body itself.  In particular a failure of the notifier fails
    the invocation after the store was read and the grouped result was
    handed to the notifier.  (The grouping loop itself calls nothing
    that can raise.) *)
Theorem C6_errors_reach_the_boundary_unchanged (rt : Runtime)
    (event : gmap string string) (context : Context) :
  logged_exceptions (trace (body rt event)) = [] /\
  (forall e, outcome (body rt event) = Raise e -> fails_with rt event context e) /\
  (outcome (body rt event) = Ok tt ->
     employee_timelog_list rt event context = body rt event) /\
  (event !! "data" = None ->
     fails_with rt event context {| exc_class := "KeyError"; exc_text := "'data'" |}) /\
  (forall d e, event !! "data" = Some d -> b64decode rt d = Raise e ->
     fails_with rt event context e) /\
  (forall d b e, event !! "data" = Some d -> b64decode rt d = Ok b ->
     utf8_decode rt b = Raise e -> fails_with rt event context e) /\
  (forall raw e, decoded rt event raw -> json_loads rt raw = Raise e ->
     fails_with rt event context e) /\
  (forall raw s e, decoded rt event raw -> json_loads rt raw = Ok (JStr s) ->
     json_loads rt s = Raise e -> fails_with rt event context e) /\
  (forall v e, outcome (decode_message rt event) = Ok v -> objects_all rt = Raise e ->
     fails_with rt event context e) /\
  (forall v logs e, outcome (decode_message rt event) = Ok v ->
     objects_all rt = Ok logs -> map_result (to_representation rt) logs = Raise e ->
     fails_with rt event context e) /\
  (forall v logs data e, outcome (decode_message rt event) = Ok v ->
     objects_all rt = Ok logs -> map_result (to_representation rt) logs = Ok data ->
     send_dashboard_update rt "all" "bulk_timelog_lookup"
       {| timelogs := group_logs data; message := msg_str data |} = Raise e ->
     fails_with rt event context e /\
     fetches (trace (employee_timelog_list rt event context)) = [tt] /\
     forwarded (trace (employee_timelog_list rt event context)) =
       [("all", "bulk_timelog_lookup",
         {| timelogs := group_logs data; message := msg_str data |})] /\
     logged_exceptions (trace (employee_timelog_list rt event context)) =
       [("Error processing employee_timelog_list message: " +:+ exc_text e, e)]).
Proof.
  split; [apply body_logged_exceptions|].
  split; [intros e; apply fails_with_intro|].
  split.
  { intros Hok. unfold employee_timelog_list. by rewrite try_except_on_exception, Hok. }
  split.
  { intros Hd. apply fails_with_intro. rewrite body_outcome.
    unfold decode_message, event_getitem. by rewrite Hd. }
  split.
  { intros d e Hd Hb. apply fails_with_intro. rewrite body_outcome.
    unfold decode_message, event_getitem. rewrite Hd.
    unfold perform, mbind, M_bind, mret, M_ret. simpl. by rewrite Hb. }
  split.
  { intros d b e Hd Hb Hu. apply fails_with_intro. rewrite body_outcome.
    unfold decode_message, event_getitem. rewrite Hd.
    unfold perform, mbind, M_bind, mret, M_ret. simpl. by rewrite Hb, Hu. }
  split.
  { intros raw e Hdec Hj. apply fails_with_intro. rewrite body_outcome.
    destruct (decode_message_outcome rt event raw Hdec) as [-> _]. by rewrite Hj. }
  split.
  { intros raw s e Hdec Hj Hs. apply fails_with_intro. rewrite body_outcome.
    destruct (decode_message_outcome rt event raw Hdec) as [-> _]. by rewrite Hj, Hs. }
  split.
  { intros v e Hv Hlogs. apply fails_with_intro.
    by rewrite body_outcome, Hv, fetch_group_forward_eq, Hlogs. }
  split.
  { intros v logs e Hv Hlogs Hdata. apply fails_with_intro.
    by rewrite body_outcome, Hv, fetch_group_forward_eq, Hlogs, Hdata. }
  intros v logs data e Hv Hlogs Hdata Hsend.
  assert (outcome (body rt event) = Raise e) as Hbody.
  { rewrite body_outcome, Hv, fetch_group_forward_eq, Hlogs, Hdata. simpl.
    by rewrite Hsend. }
  destruct (handler_downstream rt event context v Hv) as (Hf & Hq & _ & _).
  destruct (guarded_pipeline_served rt logs data Hlogs Hdata) as (Hg & Hq' & _ & _).
  split; [by apply fails_with_intro|]. split; [by rewrite Hq|]. split; [by rewrite Hf|].
  destruct (fails_with_intro rt event context e Hbody) as [-> _].
  rewrite trace_pair. unfold logged_exceptions. rewrite omap_app.
  fold (logged_exceptions (trace (body rt event))).
  by rewrite body_logged_exceptions.
Qed.

Lemma C6_notifier_failure_witness :
  let rt := Sample.runtime (Ok [Sample.x]) (Raise Sample.notification_error) in
  fails_with rt Sample.single_encoded Sample.ctx Sample.notification_error /\
  fails_with (Sample.runtime (Ok []) (Ok tt)) Sample.not_base64 Sample.ctx
    {| exc_class := "binascii.Error"; exc_text := "Incorrect padding" |}.
Proof.
  intros rt. split.
  - destruct (C6_errors_reach_the_boundary_unchanged rt Sample.single_encoded Sample.ctx)
      as (_ & _ & _ & _ & _ & _ & _ & _ & _ & _ & Hsend).
    apply (Hsend (JDict []) [Sample.x] [Sample.x]); reflexivity.
  - destruct (C6_errors_reach_the_boundary_unchanged (Sample.runtime (Ok []) (Ok tt))
                Sample.not_base64 Sample.ctx)
      as (_ & _ & _ & _ & Hb64 & _).
    apply (Hb64 "e30"); reflexivity.
Defined.

(* ===================================================================== *)
(** * Further properties of the grouping loop                             *)
(* ===================================================================== *)

Section GroupedResultFacts.
Implicit Types (g : grouped) (r : record) (data : list record) (k : string).

Lemma elem_of_getitem {V : Type} (d : odict V) k (l : list V) :
  getitem d k = Some l -> (k, l) ∈ d.
Proof.
  induction d as [|[k' l'] d IH]; simpl; [done|].
  destruct (decide (k' = k)) as [->|Hne].
  - intros [= ->]. apply list_elem_of_here.
  - intros Hget. apply list_elem_of_further. by apply IH.
Qed.

Lemma elem_of_keys_elem_of {V : Type} (d : odict V) k (l : list V) :
  (k, l) ∈ d -> k ∈ keys d.
Proof. intros Hin. unfold keys. apply list_elem_of_fmap. by exists (k, l). Qed.

Lemma elem_of_records_of data k r :
  r ∈ records_of k data <-> r ∈ data /\ key_of r = Some k.
Proof. unfold records_of. rewrite list_elem_of_filter. tauto. Qed.

Lemma group_step_skipped g r : key_of r = None -> group_step g r = g.
Proof. intros Hk. by rewrite group_step_key_of, Hk. Qed.

Lemma setitem_fresh g k (l : list record) :
  k ∉ keys g -> setitem g k l = g ++ [(k, l)].
Proof.
  induction g as [|[k' l'] g IH]; simpl; [done|].
  rewrite not_elem_of_cons. intros [Hne Hnin].
  destruct (decide (k' = k)); [congruence|]. f_equal. by apply IH.
Qed.

Lemma append_at_last g k (l : list record) r :
  k ∉ keys g -> append_at (g ++ [(k, l)]) k r = g ++ [(k, l ++ [r])].
Proof.
  induction g as [|[k' l'] g IH]; simpl.
  - intros _. by rewrite decide_True.
  - rewrite not_elem_of_cons. intros [Hne Hnin].
    destruct (decide (k' = k)); [congruence|]. f_equal. by apply IH.
Qed.

(** Filing more records of the key that was created last. *)
Lemma fold_group_step_last g k (l0 l : list record) :
  k ∉ keys g -> Forall (fun r => key_of r = Some k) l ->
  fold_left group_step l (g ++ [(k, l0)]) = g ++ [(k, l0 ++ l)].
Proof.
  intros Hnin Hall. revert l0.
  induction Hall as [|r l Hr _ IH]; intros l0; simpl.
  - by rewrite app_nil_r.
  - rewrite group_step_key_of, Hr. unfold contains.
    rewrite bool_decide_eq_true_2.
    + simpl. rewrite append_at_last by done. rewrite IH. by rewrite <- app_assoc.
    + unfold keys. rewrite fmap_app, elem_of_app. right. apply list_elem_of_here.
Qed.

(** Filing the records of a new key. *)
Lemma fold_group_step_fresh g k (l : list record) :
  k ∉ keys g -> l <> [] -> Forall (fun r => key_of r = Some k) l ->
  fold_left group_step l g = g ++ [(k, l)].
Proof.
  intros Hnin Hne Hall. destruct l as [|r l]; [done|].
  apply Forall_cons in Hall as [Hr Hall]. simpl.
  rewrite group_step_key_of, Hr. unfold contains.
  rewrite bool_decide_eq_false_2 by done. simpl.
  rewrite setitem_fresh by done. rewrite append_at_last by done.
  by rewrite fold_group_step_last.
Qed.

Lemma first_seen_prefix (ks ks' : list string) :
  first_seen ks `prefix_of` first_seen (ks ++ ks').
Proof.
  induction ks' as [|k ks' IH] using rev_ind.
  - by rewrite app_nil_r.
  - rewrite app_assoc, first_seen_snoc. destruct (decide _); [done|].
    by apply prefix_app_r.
Qed.
End GroupedResultFacts.

Lemma group_logs_groups_nonempty (data : list record) :
  Forall (fun kl => kl.2 <> []) (group_logs data).
Proof.
  apply Forall_forall. intros [k l] Hin. simpl.
  pose proof (elem_of_keys_elem_of _ _ _ Hin) as Hk.
  apply elem_of_keys_group_logs in Hk as (r & Hr & Hkey).
  apply group_logs_elem_of in Hin as ->.
  intros Hnil. assert (r ∈ records_of k data) as Hrin by (by apply elem_of_records_of).
  rewrite Hnil in Hrin. by apply not_elem_of_nil in Hrin.
Qed.

Lemma group_logs_member_key (data : list record) (r : record) (k : string)
    (l : list record) :
  (k, l) ∈ group_logs data -> r ∈ l -> r ∈ data /\ key_of r = Some k.
Proof.
  intros Hin Hr. apply group_logs_elem_of in Hin as ->.
  by apply elem_of_records_of.
Qed.

(** X1.  The grouped result is a well-formed dictionary of non-empty
    groups: no key occurs twice (line 66 creates a group only for a key
    that is not there yet) and no group is empty (the list created on
    line 67 receives a record on line 68). *)
Theorem X1_groups_distinct_and_nonempty (data : list record) :
  NoDup (keys (group_logs data)) /\
  Forall (fun kl => kl.2 <> []) (group_logs data).
Proof.
  split; [apply NoDup_keys_group_logs | apply group_logs_groups_nonempty].
Qed.

(** X2.  A record sits in the group of key [k] exactly when it is a
    record of the input whose identifier prints as [k]: no record is
    filed under a key that is not its own, and none that has an
    identifier is lost. *)
Theorem X2_group_membership (data : list record) (r : record) (k : string) :
  (exists l, (k, l) ∈ group_logs data /\ r ∈ l) <-> r ∈ data /\ key_of r = Some k.
Proof.
  split.
  - intros (l & Hin & Hr). by apply (group_logs_member_key data r k l).
  - intros [Hr Hk]. exists (records_of k data). split.
    + apply elem_of_getitem. rewrite getitem_group_logs, decide_True; [done|].
      apply elem_of_keys_group_logs. by exists r.
    + by apply elem_of_records_of.
Qed.

(** X3.  Every record of the input is either filed once or skipped: the
    sizes of the groups and the number of skipped records add up to the
    count reported in the summary. *)
Theorem X3_grouped_plus_skipped_is_total (data : list record) :
  (length (grouped_records (group_logs data))
     + length (filter (fun r => key_of r = None) data) = length data)%nat.
Proof.
  rewrite grouped_records_group_logs.
  rewrite <- (filter_app_complement (fun r => is_Some (key_of r)) data) at 3.
  rewrite length_app. f_equal. f_equal.
  apply list_filter_iff. intros r. rewrite eq_None_not_Some. done.
Qed.

(** X4.  Records that have no identifier leave no mark: the grouped
    result is that of the input with those records removed. *)
Theorem X4_skipped_records_leave_no_mark (data : list record) :
  group_logs (filter (fun r => is_Some (key_of r)) data) = group_logs data.
Proof.
  induction data as [|r data IH] using rev_ind; [done|].
  rewrite filter_app, group_logs_snoc.
  destruct (key_of r) as [k|] eqn:Hk.
  - rewrite filter_cons_True by (by rewrite Hk). by rewrite filter_nil, group_logs_snoc, IH.
  - rewrite filter_cons_False by (rewrite Hk; by intros [? ?]).
    by rewrite filter_nil, app_nil_r, group_step_skipped.
Qed.

(** X5.  Later records never disturb what earlier ones built: the keys
    of a prefix of the input stay at the front, in the same order, and
    each of its groups is only extended at the end. *)
Theorem X5_grouping_extends (data more : list record) :
  keys (group_logs data) `prefix_of` keys (group_logs (data ++ more)) /\
  forall k : string,
    getitem (group_logs (data ++ more)) k =
    match getitem (group_logs data) k with
    | Some l => Some (l ++ records_of k more)
    | None => getitem (group_logs more) k
    end.
Proof.
  split.
  - rewrite !keys_group_logs, omap_app. apply first_seen_prefix.
  - intros k. rewrite !getitem_group_logs.
    assert (records_of k (data ++ more) = records_of k data ++ records_of k more) as Happ
      by (unfold records_of; apply filter_app).
    destruct (decide (k ∈ keys (group_logs data))) as [Hin|Hnin].
    + rewrite decide_True; [by rewrite Happ|].
      apply elem_of_keys_group_logs in Hin as (r & Hr & Hk).
      apply elem_of_keys_group_logs. exists r. split; [|done].
      rewrite elem_of_app. by left.
    + rewrite Happ, (records_of_absent data k Hnin). simpl.
      destruct (decide (k ∈ keys (group_logs more))) as [Hin'|Hnin'].
      * rewrite decide_True; [done|].
        apply elem_of_keys_group_logs in Hin' as (r & Hr & Hk).
        apply elem_of_keys_group_logs. exists r. split; [|done].
        rewrite elem_of_app. by right.
      * rewrite decide_False; [done|].
        rewrite elem_of_keys_group_logs. intros (r & Hr & Hk).
        apply elem_of_app in Hr as [Hr|Hr].
        -- apply Hnin, elem_of_keys_group_logs. by exists r.
        -- apply Hnin', elem_of_keys_group_logs. by exists r.
Qed.

Section Regrouping.
Implicit Types (g : grouped) (r : record) (data : list record) (k : string).

(** A dictionary of non-empty groups with distinct keys, each holding
    records of its own key, is what grouping its records yields. *)
Lemma group_logs_grouped_records g :
  NoDup (keys g) ->
  Forall (fun kl => kl.2 <> [] /\ Forall (fun r => key_of r = Some kl.1) kl.2) g ->
  group_logs (grouped_records g) = g.
Proof.
  induction g as [|[k l] g IH] using rev_ind; [done|].
  unfold keys. rewrite fmap_app. simpl. intros Hnd Hall.
  apply NoDup_app in Hnd as (Hnd & Hfresh & _).
  apply Forall_app in Hall as [Hall Hlast].
  apply Forall_singleton in Hlast as [Hne Hkeys]. simpl in Hne, Hkeys.
  unfold grouped_records. rewrite fmap_app, concat_app. simpl. rewrite app_nil_r.
  unfold group_logs. rewrite fold_left_app.
  fold (grouped_records g). fold (group_logs (grouped_records g)).
  rewrite (IH Hnd Hall). apply fold_group_step_fresh; [|done|done].
  intros Hin. apply (Hfresh k Hin). apply list_elem_of_here.
Qed.
End Regrouping.

(** X6.  Grouping is stable: reading the records back out of the grouped
    result, group after group, and grouping them again gives the same
    grouped result, keys and groups in the same order. *)
Theorem X6_regrouping_is_stable (data : list record) :
  group_logs (grouped_records (group_logs data)) = group_logs data.
Proof.
  apply group_logs_grouped_records; [apply NoDup_keys_group_logs|].
  apply Forall_forall. intros [k l] Hin. simpl. split.
  - pose proof (group_logs_groups_nonempty data) as Hne.
    rewrite Forall_forall in Hne. apply (Hne (k, l) Hin).
  - apply Forall_forall. intros r Hr.
    by apply (group_logs_member_key data r k l).
Qed.

(** X7.  A record of the input whose [employee_id] is a non-zero integer
    [n] is found in the group whose key is the decimal form of [n], and
    two different integers never print as the same key. *)
Theorem X7_integer_employee_id_group (data : list record) (r : record) (n : Z) :
  r ∈ data -> get r "employee_id" = VInt n -> n <> 0 ->
  (exists l, getitem (group_logs data) (pretty n) = Some l /\ r ∈ l) /\
  (forall m : Z, m <> n -> pretty m <> pretty n).
Proof.
  intros Hr Hid Hn. split.
  - assert (key_of r = Some (pretty n)) as Hk.
    { unfold key_of. rewrite emp_id_truthy; rewrite Hid; [done|].
      simpl. by destruct (Z.eqb_spec n 0). }
    exists (records_of (pretty n) data). split.
    + rewrite getitem_group_logs, decide_True; [done|].
      apply elem_of_keys_group_logs. by exists r.
    + by apply elem_of_records_of.
  - intros m Hm Heq. apply Hm. by apply (inj pretty).
Qed.

Lemma X7_integer_witness :
  (exists l, getitem (group_logs [Sample.anonymous; Sample.x]) (pretty 2) = Some l
             /\ Sample.x ∈ l) /\
  (forall m : Z, m <> 2 -> pretty m <> pretty 2).
Proof.
  apply (X7_integer_employee_id_group [Sample.anonymous; Sample.x] Sample.x 2).
  - apply list_elem_of_further, list_elem_of_here.
  - reflexivity.
  - discriminate.
Defined.

(** X8.  Which records are filed: a record of the input is in some group
    exactly when its [employee_id] is truthy or its [employee] is not
    [None]; a record whose [employee_id] is missing, [None], [0], the
    empty string or [False] and that has no [employee] is in none. *)
Theorem X8_filed_records (data : list record) (r : record) :
  r ∈ data ->
  (r ∈ grouped_records (group_logs data) <->
   truthy (get r "employee_id") = true \/ get r "employee" <> VNone).
Proof.
  intros Hr. rewrite grouped_records_group_logs, list_elem_of_filter.
  assert (is_Some (key_of r) <->
          truthy (get r "employee_id") = true \/ get r "employee" <> VNone) as Hkey.
  { unfold key_of, emp_id, or_.
    destruct (truthy (get r "employee_id")) eqn:Ht.
    - split; [by left|]. intros _.
      destruct (get r "employee_id"); simpl in *; done.
    - split.
      + intros Hs. right. intros Hnone. rewrite Hnone in Hs. simpl in Hs.
        by destruct Hs.
      + intros [?|Hne]; [done|].
        destruct (get r "employee"); simpl; done. }
  rewrite Hkey. tauto.
Qed.

Lemma X8_filed_witness :
  (Sample.y ∈ grouped_records (group_logs [Sample.y; Sample.anonymous]) <->
   truthy (get Sample.y "employee_id") = true \/ get Sample.y "employee" <> VNone) /\
  (Sample.anonymous ∈ grouped_records (group_logs [Sample.y; Sample.anonymous]) <->
   truthy (get Sample.anonymous "employee_id") = true
   \/ get Sample.anonymous "employee" <> VNone).
Proof.
  split.
  - apply (X8_filed_records [Sample.y; Sample.anonymous] Sample.y).
    apply list_elem_of_here.
  - apply (X8_filed_records [Sample.y; Sample.anonymous] Sample.anonymous).
    apply list_elem_of_further, list_elem_of_here.
Defined.

(* ===================================================================== *)
(** * Further properties of the handler                                   *)
(* ===================================================================== *)

Section RunFacts.
Variable rt : Runtime.
Implicit Types (event : gmap string string) (context : Context) (e : Exception).

Lemma decode_message_same_data event event' :
  event !! "data" = event' !! "data" ->
  decode_message rt event = decode_message rt event'.
Proof. intros Hd. unfold decode_message, event_getitem. by rewrite Hd. Qed.

Lemma body_same_data event event' :
  event !! "data" = event' !! "data" -> body rt event = body rt event'.
Proof. intros Hd. unfold body, event_getitem. by rewrite Hd. Qed.

(** The decoding stage logs the decoded text, once, or nothing at all,
    and parses at most twice. *)
Lemma decode_message_infos event :
  (infos (trace (decode_message rt event)) = [] /\
   loads_of (trace (decode_message rt event)) = [] /\
   exists e, outcome (decode_message rt event) = Raise e) \/
  (exists raw, decoded rt event raw /\
     infos (trace (decode_message rt event)) = ["Raw message received: " +:+ raw] /\
     (length (loads_of (trace (decode_message rt event))) <= 2)%nat).
Proof.
  unfold decode_message, event_getitem.
  destruct (event !! "data") as [d|] eqn:Hd; [|left; eauto].
  unfold perform, logger_info, loads, mbind, M_bind, mret, M_ret. simpl.
  destruct (b64decode rt d) as [b|e] eqn:Hb; [|left; eauto].
  destruct (utf8_decode rt b) as [raw|e] eqn:Hu; [|left; eauto].
  right. exists raw. split; [by exists d, b|].
  destruct (json_loads rt raw) as [first_pass|e]; [|split; [done | simpl; lia]].
  destruct first_pass as [| | | |s| |]; simpl; try (split; [done | simpl; lia]).
Qed.

(** The guarded pipeline, in full, when the store and the serializer
    answer. *)
Lemma guarded_pipeline_trace logs data :
  objects_all rt = Ok logs -> map_result (to_representation rt) logs = Ok data ->
  let p := {| timelogs := group_logs data; message := msg_str data |} in
  guarded_pipeline rt =
    ([CInfo "Fetching all employee timesheet objects..."; CObjectsAll;
      CSerializerData; CInfo (msg_str data); CSend "all" "bulk_timelog_lookup" p]
       ++ match send_dashboard_update rt "all" "bulk_timelog_lookup" p with
          | Ok _ => [CInfo "Sent dashboard update with grouped employee timelogs."]
          | Raise e =>
              [CException ("Error processing employee_timelog_list message: "
                             +:+ exc_text e) e]
          end,
     match send_dashboard_update rt "all" "bulk_timelog_lookup" p with
     | Ok _ => Ok tt
     | Raise e => Raise e
     end).
Proof.
  intros Hlogs Hdata p. unfold guarded_pipeline.
  rewrite try_except_on_exception, fetch_group_forward_eq, Hlogs, Hdata. simpl.
  fold p. by destruct (send_dashboard_update rt "all" "bulk_timelog_lookup" p) as [[]|e].
Qed.

(** The guarded pipeline when the store or the serializer fails. *)
Lemma guarded_pipeline_unserved :
  (forall logs data, objects_all rt = Ok logs ->
     map_result (to_representation rt) logs <> Ok data) ->
  forwarded (trace (guarded_pipeline rt)) = [] /\
  (length (fetches (trace (guarded_pipeline rt))) <= 1)%nat /\
  (length (logged_exceptions (trace (guarded_pipeline rt))) <= 1)%nat /\
  exists e, outcome (guarded_pipeline rt) = Raise e.
Proof.
  intros Hno. unfold guarded_pipeline.
  rewrite try_except_on_exception, fetch_group_forward_eq.
  destruct (objects_all rt) as [logs|e] eqn:Hlogs.
  - destruct (map_result (to_representation rt) logs) as [data|e] eqn:Hdata.
    + by destruct (Hno logs data).
    + simpl. repeat split; try done; try lia. by exists e.
  - simpl. repeat split; try done; try lia. by exists e.
Qed.
End RunFacts.

(** X9.  The handler reads nothing but [event["data"]]: two events with
    the same [data] field, whatever else they carry, and any two
    delivery contexts give the same calls and the same outcome. *)
Theorem X9_only_the_data_field_is_read (rt : Runtime)
    (event event' : gmap string string) (context context' : Context) :
  event !! "data" = event' !! "data" ->
  employee_timelog_list rt event context = employee_timelog_list rt event' context'.
Proof.
  intros Hd. unfold employee_timelog_list. by rewrite (body_same_data rt event event' Hd).
Qed.

Lemma X9_data_field_witness :
  let rt := Sample.runtime (Ok [Sample.x]) (Ok tt) in
  employee_timelog_list rt Sample.single_encoded Sample.ctx =
  employee_timelog_list rt (<["attributes" := "origin=cron"]> Sample.single_encoded)
    {| event_id := "2"; timestamp := "2024-06-30T12:00:00Z" |}.
Proof.
  intros rt. apply X9_only_the_data_field_is_read. reflexivity.
Defined.

(** X10.  A message that cannot be decoded or parsed touches neither the
    store nor the notifier: the handler logs the error once and raises
    it, without a fetch and without a forward. *)
Theorem X10_undecodable_message_touches_nothing (rt : Runtime)
    (event : gmap string string) (context : Context) (e : Exception) :
  outcome (decode_message rt event) = Raise e ->
  outcome (employee_timelog_list rt event context) = Raise e /\
  fetches (trace (employee_timelog_list rt event context)) = [] /\
  forwarded (trace (employee_timelog_list rt event context)) = [] /\
  logged_exceptions (trace (employee_timelog_list rt event context)) =
    [("Error processing employee_timelog_list message: " +:+ exc_text e, e)].
Proof.
  intros He. rewrite (handler_decode_raises rt event context e He).
  rewrite trace_pair, outcome_pair.
  destruct (decode_message_quiet rt event) as (Hf & Hq & Hx).
  unfold fetches, forwarded, logged_exceptions in *. rewrite !omap_app, Hf, Hq, Hx.
  done.
Qed.

Lemma X10_not_json_witness :
  let rt := Sample.runtime (Ok [Sample.x]) (Ok tt) in
  outcome (employee_timelog_list rt Sample.not_json Sample.ctx) = Raise Sample.json_error /\
  fetches (trace (employee_timelog_list rt Sample.not_json Sample.ctx)) = [] /\
  forwarded (trace (employee_timelog_list rt Sample.not_json Sample.ctx)) = [] /\
  logged_exceptions (trace (employee_timelog_list rt Sample.not_json Sample.ctx)) =
    [("Error processing employee_timelog_list message: "
        +:+ exc_text Sample.json_error, Sample.json_error)].
Proof.
  intros rt.
  apply (X10_undecodable_message_touches_nothing rt Sample.not_json Sample.ctx
           Sample.json_error).
  reflexivity.
Defined.

(** X11.  When the store or the serializer fails, nothing is forwarded,
    whatever the message: the notifier is not called with a partial or
    empty result. *)
Theorem X11_nothing_forwarded_without_records (rt : Runtime)
    (event : gmap string string) (context : Context) :
  (forall logs data, objects_all rt = Ok logs ->
     map_result (to_representation rt) logs <> Ok data) ->
  forwarded (trace (employee_timelog_list rt event context)) = [] /\
  exists e, outcome (employee_timelog_list rt event context) = Raise e.
Proof.
  intros Hno.
  destruct (outcome (decode_message rt event)) as [v|e] eqn:Hv.
  - destruct (handler_downstream rt event context v Hv) as (Hf & _ & _ & Ho).
    destruct (guarded_pipeline_unserved rt Hno) as (Hg & _ & _ & He).
    by rewrite Hf, Ho.
  - rewrite (handler_decode_raises rt event context e Hv), trace_pair, outcome_pair.
    destruct (decode_message_quiet rt event) as (Hf & _).
    unfold forwarded in *. rewrite omap_app, Hf. split; [done | by exists e].
Qed.

Lemma X11_store_failure_witness :
  let rt := Sample.runtime (Raise Sample.store_error) (Ok tt) in
  forwarded (trace (employee_timelog_list rt Sample.single_encoded Sample.ctx)) = [] /\
  exists e, outcome (employee_timelog_list rt Sample.single_encoded Sample.ctx) = Raise e.
Proof.
  intros rt. apply X11_nothing_forwarded_without_records.
  intros logs data Hlogs. discriminate Hlogs.
Defined.

(** X12.  One invocation makes at most one call to the store, at most
    one call to the notifier and at most two calls to [json.loads], and
    writes at most one error-level entry: the handler has no loop around
    its collaborators and never retries by itself. *)
Theorem X12_call_bounds (rt : Runtime) (event : gmap string string) (context : Context) :
  (length (fetches (trace (employee_timelog_list rt event context))) <= 1)%nat /\
  (length (forwarded (trace (employee_timelog_list rt event context))) <= 1)%nat /\
  (length (loads_of (trace (employee_timelog_list rt event context))) <= 2)%nat /\
  (length (logged_exceptions (trace (employee_timelog_list rt event context))) <= 1)%nat.
Proof.
  assert (length (loads_of (trace (decode_message rt event))) <= 2)%nat as Hloads.
  { destruct (decode_message_infos rt event) as [(_ & -> & _)|(raw & _ & _ & Hl)];
      [simpl; lia | done]. }
  destruct (decode_message_quiet rt event) as (Hdf & Hdq & Hdx).
  destruct (outcome (decode_message rt event)) as [v|e] eqn:Hv.
  - destruct (handler_downstream rt event context v Hv) as (Hf & Hq & Hl & _).
    rewrite Hf, Hq, Hl.
    rewrite (handler_after_decode rt event context v Hv), trace_pair.
    unfold logged_exceptions at 1. rewrite omap_app.
    fold (logged_exceptions (trace (decode_message rt event))).
    fold (logged_exceptions (trace (guarded_pipeline rt))). rewrite Hdx. simpl.
    destruct (objects_all rt) as [logs|e] eqn:Hlogs.
    + destruct (map_result (to_representation rt) logs) as [data|e] eqn:Hdata.
      * rewrite (guarded_pipeline_trace rt logs data Hlogs Hdata), trace_pair.
        destruct (send_dashboard_update rt _ _ _); simpl; repeat split; lia.
      * destruct (guarded_pipeline_unserved rt) as (-> & ? & ? & _).
        { intros logs' data' Hl'. rewrite Hlogs in Hl'. injection Hl' as <-.
          by rewrite Hdata. }
        simpl. repeat split; lia.
    + destruct (guarded_pipeline_unserved rt) as (-> & ? & ? & _).
      { intros logs' data' Hl'. by rewrite Hlogs in Hl'. }
      simpl. repeat split; lia.
  - rewrite (handler_decode_raises rt event context e Hv), trace_pair.
    unfold fetches, forwarded, loads_of, logged_exceptions in *.
    rewrite !omap_app, Hdf, Hdq, Hdx. simpl. rewrite app_nil_r. repeat split; lia.
Qed.

(** X13.  After a message that decodes, when the store and the
    serializer answer with [data], the calls follow in this order: the
    "Fetching" entry, the store, the serializer, the summary entry, the
    notifier, and then either the "Sent" entry or, when the notifier
    raised, the error entry.  The summary is logged before the forward
    and the "Sent" entry only after the notifier returned. *)
Theorem X13_order_of_calls (rt : Runtime) (event : gmap string string)
    (context : Context) (v : json) (logs : list (TimeLog rt)) (data : list record) :
  outcome (decode_message rt event) = Ok v ->
  objects_all rt = Ok logs ->
  map_result (to_representation rt) logs = Ok data ->
  let p := {| timelogs := group_logs data;
              message := "Bulk Timesheet Lookup: found " +:+ pretty (length data)
                           +:+ " timelog records." |} in
  trace (employee_timelog_list rt event context) =
    trace (decode_message rt event)
      ++ [CInfo "Fetching all employee timesheet objects..."; CObjectsAll;
          CSerializerData;
          CInfo ("Bulk Timesheet Lookup: found " +:+ pretty (length data)
                   +:+ " timelog records.");
          CSend "all" "bulk_timelog_lookup" p]
      ++ match send_dashboard_update rt "all" "bulk_timelog_lookup" p with
         | Ok _ => [CInfo "Sent dashboard update with grouped employee timelogs."]
         | Raise e =>
             [CException ("Error processing employee_timelog_list message: "
                            +:+ exc_text e) e]
         end.
Proof.
  intros Hv Hlogs Hdata p.
  rewrite (handler_after_decode rt event context v Hv), trace_pair.
  by rewrite (guarded_pipeline_trace rt logs data Hlogs Hdata), trace_pair.
Qed.

Lemma X13_order_witness :
  let rt := Sample.runtime (Ok []) (Ok tt) in
  trace (employee_timelog_list rt Sample.single_encoded Sample.ctx) =
    trace (decode_message rt Sample.single_encoded)
      ++ [CInfo "Fetching all employee timesheet objects..."; CObjectsAll;
          CSerializerData;
          CInfo "Bulk Timesheet Lookup: found 0 timelog records.";
          CSend "all" "bulk_timelog_lookup"
            {| timelogs := [];
               message := "Bulk Timesheet Lookup: found 0 timelog records." |};
          CInfo "Sent dashboard update with grouped employee timelogs."].
Proof.
  intros rt.
  apply (X13_order_of_calls rt Sample.single_encoded Sample.ctx (JDict []) [] []);
    reflexivity.
Defined.

(** X14.  The handler succeeds exactly when every stage answers: the
    message decodes and parses, the store and the serializer return the
    records, and the notifier accepts the grouped result. *)
Theorem X14_success_iff_every_stage_answers (rt : Runtime)
    (event : gmap string string) (context : Context) :
  outcome (employee_timelog_list rt event context) = Ok tt <->
  exists v logs data,
    outcome (decode_message rt event) = Ok v /\
    objects_all rt = Ok logs /\
    map_result (to_representation rt) logs = Ok data /\
    send_dashboard_update rt "all" "bulk_timelog_lookup"
      {| timelogs := group_logs data; message := msg_str data |} = Ok tt.
Proof.
  split.
  - intros Hok.
    destruct (outcome (decode_message rt event)) as [v|e] eqn:Hv.
    + destruct (handler_downstream rt event context v Hv) as (_ & _ & _ & Ho).
      rewrite Ho in Hok.
      destruct (objects_all rt) as [logs|e] eqn:Hlogs.
      * destruct (map_result (to_representation rt) logs) as [data|e] eqn:Hdata.
        -- exists v, logs, data. repeat split; try done.
           rewrite (guarded_pipeline_trace rt logs data Hlogs Hdata), outcome_pair in Hok.
           by destruct (send_dashboard_update rt _ _ _) as [[]|e].
        -- destruct (guarded_pipeline_unserved rt) as (_ & _ & _ & e' & He').
           { intros logs' data' Hl'. rewrite Hlogs in Hl'. injection Hl' as <-.
          by rewrite Hdata. }
           by rewrite He' in Hok.
      * destruct (guarded_pipeline_unserved rt) as (_ & _ & _ & e' & He').
        { intros logs' data' Hl'. by rewrite Hlogs in Hl'. }
        by rewrite He' in Hok.
    + by rewrite (handler_decode_raises rt event context e Hv) in Hok.
  - intros (v & logs & data & Hv & Hlogs & Hdata & Hsend).
    destruct (handler_downstream rt event context v Hv) as (_ & _ & _ & ->).
    by rewrite (guarded_pipeline_trace rt logs data Hlogs Hdata), outcome_pair, Hsend.
Qed.

(** X15.  The decoded text is logged as received, before it is parsed:
    when the [data] field decodes to [raw], the handler's first calls
    are the two decoders, the entry "Raw message received: raw" and then
    [json.loads(raw)], whether or not [raw] turns out to be JSON. *)
Theorem X15_raw_text_logged_before_parsing (rt : Runtime)
    (event : gmap string string) (context : Context) (d : string)
    (b : list Byte.byte) (raw : string) :
  event !! "data" = Some d -> b64decode rt d = Ok b -> utf8_decode rt b = Ok raw ->
  exists rest,
    trace (employee_timelog_list rt event context) =
      [CB64decode d; CUtf8decode b; CInfo ("Raw message received: " +:+ raw);
       CLoads raw] ++ rest.
Proof.
  intros Hd Hb Hraw.
  pose proof (decode_message_decoded rt event d b raw Hd Hb Hraw) as Hdec.
  destruct (outcome (decode_message rt event)) as [v|e] eqn:Hv.
  - rewrite (handler_after_decode rt event context v Hv), trace_pair.
    rewrite Hdec, trace_pair, <- app_assoc. eauto.
  - rewrite (handler_decode_raises rt event context e Hv), trace_pair.
    rewrite Hdec, trace_pair, <- app_assoc. eauto.
Qed.

Lemma X15_raw_text_witness :
  let rt := Sample.runtime (Ok []) (Ok tt) in
  exists rest,
    trace (employee_timelog_list rt Sample.not_json Sample.ctx) =
      [CB64decode "bm90IGpzb24=";
       CUtf8decode [Byte.x6e; Byte.x6f; Byte.x74; Byte.x20;
                    Byte.x6a; Byte.x73; Byte.x6f; Byte.x6e];
       CInfo ("Raw message received: " +:+ "not json"); CLoads "not json"] ++ rest.
Proof.
  intros rt.
  apply (X15_raw_text_logged_before_parsing rt Sample.not_json Sample.ctx); reflexivity.
Defined.

Section SuccessEntry.
Variable rt : Runtime.
Implicit Types (event : gmap string string) (context : Context).

Lemma raw_entry_is_not_sent (raw : string) :
  "Raw message received: " +:+ raw <> sent_entry.
Proof. unfold sent_entry. discriminate. Qed.

Lemma summary_is_not_sent (data : list record) : msg_str data <> sent_entry.
Proof. unfold msg_str, sent_entry. discriminate. Qed.

Lemma decode_message_never_sent event :
  sent_entry ∉ infos (trace (decode_message rt event)).
Proof.
  destruct (decode_message_infos rt event) as [(-> & _)|(raw & _ & -> & _)].
  - apply not_elem_of_nil.
  - rewrite list_elem_of_singleton. intros Heq. by apply (raw_entry_is_not_sent raw).
Qed.

Lemma guarded_pipeline_sent :
  sent_entry ∈ infos (trace (guarded_pipeline rt)) <->
  outcome (guarded_pipeline rt) = Ok tt.
Proof.
  destruct (objects_all rt) as [logs|e] eqn:Hlogs.
  - destruct (map_result (to_representation rt) logs) as [data|e] eqn:Hdata.
    + rewrite (guarded_pipeline_trace rt logs data Hlogs Hdata), trace_pair, outcome_pair.
      destruct (send_dashboard_update rt _ _ _) as [[]|e]; simpl.
      * split; [done|]. intros _. do 2 apply list_elem_of_further. apply list_elem_of_here.
      * split; [|done]. rewrite !elem_of_cons. intros [Heq|[Heq|Hnil]].
        -- discriminate Heq.
        -- by destruct (summary_is_not_sent data).
        -- by apply not_elem_of_nil in Hnil.
    + unfold guarded_pipeline.
      rewrite try_except_on_exception, fetch_group_forward_eq, Hlogs, Hdata. simpl.
      split; [|done]. rewrite list_elem_of_singleton. discriminate.
  - unfold guarded_pipeline.
    rewrite try_except_on_exception, fetch_group_forward_eq, Hlogs. simpl.
    split; [|done]. rewrite list_elem_of_singleton. discriminate.
Qed.
End SuccessEntry.

(** X16.  The entry "Sent dashboard update with grouped employee
    timelogs." is in the log exactly when the invocation succeeded: it
    is never written when a stage failed, and no other entry of the
    handler can be mistaken for it. *)
Theorem X16_sent_entry_iff_success (rt : Runtime) (event : gmap string string)
    (context : Context) :
  "Sent dashboard update with grouped employee timelogs."
    ∈ infos (trace (employee_timelog_list rt event context)) <->
  outcome (employee_timelog_list rt event context) = Ok tt.
Proof.
  fold sent_entry.
  pose proof (decode_message_never_sent rt event) as Hnever.
  destruct (outcome (decode_message rt event)) as [v|e] eqn:Hv.
  - rewrite (handler_after_decode rt event context v Hv), trace_pair, outcome_pair.
    unfold infos at 1. rewrite omap_app.
    fold (infos (trace (decode_message rt event))).
    fold (infos (trace (guarded_pipeline rt))).
    rewrite elem_of_app, <- guarded_pipeline_sent. tauto.
  - rewrite (handler_decode_raises rt event context e Hv), trace_pair, outcome_pair.
    unfold infos at 1. rewrite omap_app. simpl. rewrite app_nil_r.
    fold (infos (trace (decode_message rt event))). split; [done | discriminate].
Qed.

Section TopicFacts.
Import Config.

Lemma list_ascii_of_string_app (s1 s2 : string) :
  list_ascii_of_string (s1 +:+ s2) = list_ascii_of_string s1 ++ list_ascii_of_string s2.
Proof.
  induction s1 as [|c s1 IH]; [done|].
  change (String c s1 +:+ s2) with (String c (s1 +:+ s2)). simpl. by rewrite IH.
Qed.

Lemma string_app_inv_tail (s1 s2 t : string) : s1 +:+ t = s2 +:+ t -> s1 = s2.
Proof.
  intros Heq. apply (f_equal list_ascii_of_string) in Heq.
  rewrite !list_ascii_of_string_app in Heq. apply app_inv_tail in Heq.
  apply (f_equal string_of_list_ascii) in Heq.
  by rewrite !string_of_list_ascii_of_string in Heq.
Qed.
End TopicFacts.

(** X17.  The dashboard topic is [projects/<id>/topics/dashboard-queue]
    where [<id>] is the [PROJECT_ID] variable when it is set, even to
    the empty string, and [hopkinstimesheetproj] only when it is unset;
    two environments name the same topic exactly when they give the same
    project. *)
Theorem X17_dashboard_topic (environ environ' : gmap string string) :
  Config.DASHBOARD_TOPIC environ =
    "projects/" +:+ match environ !! "PROJECT_ID" with
                    | Some p => p
                    | None => "hopkinstimesheetproj"
                    end +:+ "/topics/dashboard-queue" /\
  (Config.DASHBOARD_TOPIC environ = Config.DASHBOARD_TOPIC environ' <->
   Config.PROJECT_ID environ = Config.PROJECT_ID environ').
Proof.
  split.
  - unfold Config.DASHBOARD_TOPIC, Config.PROJECT_ID.
    by destruct (environ !! "PROJECT_ID").
  - unfold Config.DASHBOARD_TOPIC. split; [|by intros ->].
    intros Heq. apply (inj (String.app "projects/")) in Heq.
    by apply string_app_inv_tail in Heq.
Qed.
